(** * scan-packages.py: dependency scanner, shallow embedding and properties

    The script reads a declared manifest (package.json), an optional lock
    file (package-lock.json) and an advisory table (CSV), builds one
    name -> version dictionary and reports the entries that occur in the
    advisory set.  This file embeds the functions of [scan-packages.py] one
    by one and proves the properties of the specification about them.

    Conventions of the embedding.
    - A Python [str] is the list of its Unicode code points ([pystr]).
    - A Python [dict] keeps insertion order: it is an association list with
      pairwise distinct keys, updated in place or extended at the end
      ([dict_set]).
    - A [try: ... except Exception] block is an error monad ([res]);
      [sys.exit] and uncaught exceptions end the run ([proc]).
    - [print] calls append to a log of messages ([msg], [run]). *)

From Stdlib Require Import ZArith NArith List String Ascii Bool Lia.
From stdpp Require Import base option list gmap.

Open Scope N_scope.
Open Scope list_scope.

(** ** Python strings *)

Definition char := N.
Definition pystr := list char.

(** An ASCII literal as a Python string. *)
Definition str (s : string) : pystr :=
  map N_of_ascii (list_ascii_of_string s).

(** [str.isspace] on one code point: the characters that [str.split()] and
    [str.strip()] treat as whitespace. *)
Definition is_space (c : char) : bool :=
  ((9 <=? c) && (c <=? 13)) || ((28 <=? c) && (c <=? 32))
  || (c =? 133) || (c =? 160) || (c =? 5760)
  || ((8192 <=? c) && (c <=? 8202))
  || (c =? 8232) || (c =? 8233) || (c =? 8239) || (c =? 8287)
  || (c =? 12288).

Definition mem_char (c : char) (chars : pystr) : bool :=
  existsb (N.eqb c) chars.

(** [s.lstrip(chars)] and its generalisation to a predicate. *)
Fixpoint lstrip_by (p : char -> bool) (s : pystr) : pystr :=
  match s with
  | c :: s' => if p c then lstrip_by p s' else s
  | [] => []
  end.

Definition lstrip (chars : pystr) (s : pystr) : pystr :=
  lstrip_by (fun c => mem_char c chars) s.

Definition rstrip_by (p : char -> bool) (s : pystr) : pystr :=
  rev (lstrip_by p (rev s)).

(** [s.strip()] *)
Definition strip (s : pystr) : pystr :=
  lstrip_by is_space (rstrip_by is_space s).

(** [s.split()]: the maximal runs of characters that are not whitespace. *)
Fixpoint split_ws (s : pystr) : list pystr :=
  match s with
  | [] => []
  | c :: s' =>
      if is_space c then split_ws s'
      else match s' with
           | [] => [[c]]
           | c' :: _ =>
               if is_space c' then [c] :: split_ws s'
               else match split_ws s' with
                    | t :: ts => (c :: t) :: ts
                    | [] => [[c]]
                    end
           end
  end.

(** [s.split(sep)] for a one-character separator. *)
Fixpoint split_on (sep : char) (s : pystr) : list pystr :=
  match s with
  | [] => [[]]
  | c :: s' =>
      if c =? sep then [] :: split_on sep s'
      else match split_on sep s' with
           | t :: ts => (c :: t) :: ts
           | [] => [[c]]
           end
  end.

Fixpoint starts_with (p s : pystr) : bool :=
  match p, s with
  | [], _ => true
  | a :: p', b :: s' => (a =? b) && starts_with p' s'
  | _ :: _, [] => false
  end.

(** [old in s] for strings: [old] occurs as a substring. *)
Fixpoint contains (old s : pystr) : bool :=
  starts_with old s ||
  match s with
  | [] => false
  | _ :: s' => contains old s'
  end.

(** [s.replace(old, "")] for a non-empty [old]: one pass from the left,
    every occurrence found is dropped and the scan resumes after it.
    [skip] counts the characters of the current occurrence still to drop. *)
Fixpoint remove_go (old : pystr) (skip : nat) (s : pystr) : pystr :=
  match s with
  | [] => []
  | c :: s' =>
      match skip with
      | S k => remove_go old k s'
      | O => if starts_with old s then remove_go old (Nat.pred (length old)) s'
             else c :: remove_go old O s'
      end
  end.

Definition remove_all (old s : pystr) : pystr := remove_go old O s.

(** ** Exceptions

    The classes of the exceptions the program can meet, all of them
    subclasses of [Exception] ([json.JSONDecodeError] is a [ValueError]). *)

Inductive exn :=
| TypeError | ValueError | KeyError | AttributeError | IndexError
| StopIteration | OSError.

Inductive res (A : Type) :=
| Ok (a : A)
| Raise (e : exn).
Arguments Ok {A} a.
Arguments Raise {A} e.

#[global] Instance res_ret : MRet res := fun A a => Ok a.
#[global] Instance res_bind : MBind res := fun A B f m =>
  match m with
  | Ok a => f a
  | Raise e => Raise e
  end.

(** ** Version normalisation (load_package_json, line 77) *)

Definition comparators : pystr := str "^~>=<".

(** [l[0]] *)
Definition first_item {A} (l : list A) : res A :=
  match l with
  | x :: _ => Ok x
  | [] => Raise IndexError
  end.

(** [version.lstrip('^~>=<').split()[0]] *)
Definition clean_version (version : pystr) : res pystr :=
  first_item (split_ws (lstrip comparators version)).

(** ** Parsed JSON documents

    What [json.load] returns.  An object is a Python dict, kept in iteration
    order; its keys are pairwise distinct, which the statements that depend
    on it assume ([NoDup]).  Numbers are the integers; floating-point
    literals are outside the model. *)

#[local] Unset Elimination Schemes.
Inductive json :=
| JNull
| JBool (b : bool)
| JInt (z : Z)
| JStr (s : pystr)
| JArr (l : list json)
| JObj (d : list (pystr * json)).
#[local] Set Elimination Schemes.

(** ** Dictionaries *)

(** A hashable Python value used as a dictionary key, up to Python's [==]:
    [True] and [1] are one key, [False] and [0] another. *)
Inductive key :=
| KStr (s : pystr)
| KInt (z : Z)
| KNone.

#[global] Instance key_eq_dec : EqDecision key.
Proof. solve_decision. Defined.

Section Dict.
Context {K V : Type} `{EqDecision K}.

(** [d.get(k)] *)
Fixpoint dict_get (k : K) (d : list (K * V)) : option V :=
  match d with
  | [] => None
  | (k', v) :: d' => if decide (k = k') then Some v else dict_get k d'
  end.

(** [k in d] *)
Definition dict_mem (k : K) (d : list (K * V)) : bool :=
  match dict_get k d with Some _ => true | None => false end.

(** [d[k] = v]: an existing key keeps its place, a new key goes last. *)
Fixpoint dict_set (k : K) (v : V) (d : list (K * V)) : list (K * V) :=
  match d with
  | [] => [(k, v)]
  | (k', v') :: d' =>
      if decide (k = k') then (k', v) :: d' else (k', v') :: dict_set k v d'
  end.

(** [d.update(items)] for the items of another dict. *)
Definition dict_update (d items : list (K * V)) : list (K * V) :=
  foldl (fun acc kv => dict_set kv.1 kv.2 acc) d items.
End Dict.

Abbreviation pydict K V := (list (K * V)) (only parsing).

(** A [for] loop whose body may raise. *)
Fixpoint for_each {A S : Type} (body : S -> A -> res S) (l : list A) (s : S)
  : res S :=
  match l with
  | [] => Ok s
  | a :: l' => s' ← body s a; for_each body l' s'
  end.

(** ** Operations of Python on a parsed JSON value *)

(** [k in j] for a string [k]. *)
Definition py_in (k : pystr) (j : json) : res bool :=
  match j with
  | JObj d => Ok (dict_mem k d)
  | JArr l => Ok (existsb (fun e => match e with
                                   | JStr s => bool_decide (s = k)
                                   | _ => false
                                   end) l)
  | JStr s => Ok (contains k s)
  | JNull | JBool _ | JInt _ => Raise TypeError
  end.

(** [j[k]] for a string [k]. *)
Definition py_getitem (j : json) (k : pystr) : res json :=
  match j with
  | JObj d => match dict_get k d with
              | Some v => Ok v
              | None => Raise KeyError
              end
  | _ => Raise TypeError
  end.

(** [j.get(k, default)] *)
Definition py_get (j : json) (k : pystr) (default : json) : res json :=
  match j with
  | JObj d => Ok (match dict_get k d with Some v => v | None => default end)
  | _ => Raise AttributeError
  end.

(** [j.items()] *)
Definition py_items (j : json) : res (list (pystr * json)) :=
  match j with
  | JObj d => Ok d
  | _ => Raise AttributeError
  end.

(** [hash(j)], as far as a dictionary or a set needs it. *)
Definition key_of (j : json) : res key :=
  match j with
  | JStr s => Ok (KStr s)
  | JInt z => Ok (KInt z)
  | JBool b => Ok (KInt (if b then 1 else 0)%Z)
  | JNull => Ok KNone
  | JArr _ | JObj _ => Raise TypeError
  end.

(** The elements of [j] read as a sequence (what [dict.update] does with
    each item of a non-dict argument). *)
Definition as_sequence (j : json) : res (list json) :=
  match j with
  | JArr l => Ok l
  | JStr s => Ok (map (fun c => JStr [c]) s)
  | JObj d => Ok (map (fun kv => JStr kv.1) d)
  | JNull | JBool _ | JInt _ => Raise TypeError
  end.

Definition pair_of_item (e : json) : res (key * json) :=
  sq ← as_sequence e;
  match sq with
  | [k; v] => k' ← key_of k; Ok (k', v)
  | _ => Raise ValueError
  end.

(** [all_deps.update(arg)]: a dict argument is merged entry by entry; any
    other iterable must yield key/value pairs. *)
Definition py_update (all_deps : pydict key json) (arg : json)
  : res (pydict key json) :=
  match arg with
  | JObj d => Ok (dict_update all_deps (map (fun kv => (KStr kv.1, kv.2)) d))
  | JArr l =>
      for_each (fun acc e => kv ← pair_of_item e; Ok (dict_set kv.1 kv.2 acc))
               l all_deps
  | JStr [] => Ok all_deps
  | JStr (_ :: _) => Raise ValueError
  | JNull | JBool _ | JInt _ => Raise TypeError
  end.

(** ** load_package_json (lines 55-83) *)

Definition dep_types : list pystr :=
  [str "dependencies"; str "devDependencies";
   str "peerDependencies"; str "optionalDependencies"].

(** Lines 68-71. *)
Definition collect_deps (pkg : json) : res (pydict key json) :=
  for_each (fun all_deps dep_type =>
              present ← py_in dep_type pkg;
              if (present : bool)
              then sect ← py_getitem pkg dep_type; py_update all_deps sect
              else Ok all_deps)
           dep_types [].

(** Line 77 on a value taken from the manifest. *)
Definition clean_value (version : json) : res pystr :=
  match version with
  | JStr s => clean_version s
  | _ => Raise AttributeError
  end.

(** Lines 74-78. *)
Definition clean_deps (all_deps : pydict key json) : res (pydict key json) :=
  for_each (fun cleaned nv =>
              clean ← clean_value nv.2;
              Ok (dict_set nv.1 (JStr clean) cleaned))
           all_deps [].

(** The [try] block, lines 64-80. *)
Definition parse_manifest (pkg : json) : res (pydict key json) :=
  all_deps ← collect_deps pkg; clean_deps all_deps.

(** ** load_package_lock (lines 86-133) *)

Definition node_modules : pystr := str "node_modules/".

(** Lines 107-114: the package name recorded for an install path. *)
Definition package_name_of (package_path : pystr) : pystr :=
  let package_name := remove_all node_modules package_path in
  if starts_with (str "@") package_name then
    match split_on 47 package_name with
    | p0 :: p1 :: _ => p0 ++ str "/" ++ p1
    | _ => package_name
    end
  else package_name.

(** The body of the loop over [lock['packages']], lines 103-117. *)
Definition record_path (all_packages : pydict pystr json)
    (entry : pystr * json) : res (pydict pystr json) :=
  let package_path := entry.1 in
  let package_info := entry.2 in
  if bool_decide (package_path = [])
  then Ok all_packages
  else
    let package_name := package_name_of package_path in
    present ← py_in (str "version") package_info;
    if (present : bool)
    then version ← py_getitem package_info (str "version");
         Ok (dict_set package_name version all_packages)
    else Ok all_packages.

(** [extract_deps], lines 121-126, with [all_packages] passed along.  The
    lookup of [info['dependencies']] is written as a local loop so that the
    recursive call is on a component of [deps_dict]; [extract_deps_unfold]
    below restates the body with [dict_get]. *)
Fixpoint extract_deps (deps_dict : json) (all_packages : pydict pystr json)
  : res (pydict pystr json) :=
  match deps_dict with
  | JObj items =>
      (fix loop (l : list (pystr * json)) (acc : pydict pystr json)
         : res (pydict pystr json) :=
         match l with
         | [] => Ok acc
         | (name, info) :: l' =>
             match info with
             | JObj d =>
                 let acc1 := match dict_get (str "version") d with
                             | Some v => dict_set name v acc
                             | None => acc
                             end in
                 acc2 ← (fix lookup_rec (d' : list (pystr * json)) :=
                           match d' with
                           | [] => Ok acc1
                           | (k, sub) :: d'' =>
                               if decide (str "dependencies" = k)
                               then extract_deps sub acc1
                               else lookup_rec d''
                           end) d;
                 loop l' acc2
             | _ => loop l' acc
             end
         end) items all_packages
  | _ => Raise AttributeError
  end.

(** The [try] block, lines 94-130. *)
Definition parse_lock (lock : json) : res (pydict pystr json) :=
  has_packages ← py_in (str "packages") lock;
  all_packages ←
    (if (has_packages : bool)
     then packages ← py_get lock (str "packages") (JObj []);
          entries ← py_items packages;
          for_each record_path entries []
     else Ok []);
  has_deps ← py_in (str "dependencies") lock;
  if (has_deps : bool)
  then deps ← py_getitem lock (str "dependencies");
       extract_deps deps all_packages
  else Ok all_packages.

(** ** load_infected_packages (lines 37-52) *)

(** What [csv.reader] yields for the advisory file: its rows, or the
    exception raised while the file is opened, decoded or tokenised. *)
Inductive csv_file :=
| CsvError (e : exn)
| CsvRows (rows : list (list pystr)).

(** Lines 45-48 for one row. *)
Definition advisory_entry (row : list pystr) : option (pystr * pystr) :=
  match row with
  | package :: version :: _ =>
      Some (strip package, lstrip (str "= ") (strip version))
  | _ => None
  end.

(** Lines 45-48: a row of two columns or more adds its pair to the set. *)
Definition add_row (infected : gset (pystr * pystr)) (row : list pystr)
  : gset (pystr * pystr) :=
  match advisory_entry row with
  | Some e => infected ∪ {[ e ]}
  | None => infected
  end.

(** Lines 43-49: [next(reader)] drops the header, the loop fills the set. *)
Definition read_advisories (rows : list (list pystr))
  : res (gset (pystr * pystr)) :=
  match rows with
  | [] => Raise StopIteration
  | _header :: data =>
      Ok (foldl add_row ∅ data)
  end.

(** ** scan_packages (lines 136-144) *)

(** [(package_name, version) in infected]: the pair is hashed first, then
    compared with the pairs of strings in the set. *)
Definition is_infected (infected : gset (pystr * pystr))
    (package_name : key) (version : json) : res bool :=
  _ ← key_of version;
  Ok (match package_name, version with
      | KStr n, JStr v => bool_decide ((n, v) ∈ infected)
      | _, _ => false
      end).

Definition scan_packages (installed : pydict key json)
    (infected : gset (pystr * pystr)) : res (list (key * json)) :=
  for_each (fun found_infections nv =>
              hit ← is_infected infected nv.1 nv.2;
              Ok (if (hit : bool) then found_infections ++ [nv]
                  else found_infections))
           installed [].

(** ** The run: files, messages, exit *)

(** A file read with [json.load]: missing, present but raising when opened
    or parsed, or parsed. *)
Inductive file :=
| Absent
| Unreadable (e : exn)
| Parsed (j : json).

(** The messages printed; banner, separator and blank lines and the fixed
    remediation text are left out. *)
Inductive msg :=
| MsgDownloading
| MsgDownloaded
| MsgDownloadFailed
| MsgCsvFailed (e : exn)
| MsgManifestMissing
| MsgManifestFound
| MsgManifestFailed (e : exn)
| MsgLockFound
| MsgLockWarning (e : exn)
| MsgTestMode
| MsgTestCsvMissing
| MsgManifestCount (n : nat)
| MsgLockCount (n : nat)
| MsgTotalUnique (n : nat)
| MsgNoLock
| MsgAdvisoryCount (n : nat)
| MsgInfectedFound (package : key) (version : json)
| MsgNoInfection
| MsgInfectionCount (n : nat)
| MsgInfectedItem (package : key) (version : json).

(** How a procedure ends: it returns, calls [sys.exit], or lets an
    exception escape. *)
Inductive proc (A : Type) :=
| Return (a : A)
| SysExit (code : Z)
| Uncaught (e : exn).
Arguments Return {A} a.
Arguments SysExit {A} code.
Arguments Uncaught {A} e.

Record run (A : Type) := Run { printed : list msg; outcome : proc A }.
Arguments Run {A} printed outcome.
Arguments printed {A} r.
Arguments outcome {A} r.

#[global] Instance run_ret : MRet run := fun A a => Run [] (Return a).
#[global] Instance run_bind : MBind run := fun A B f m =>
  match outcome m with
  | Return a => Run (printed m ++ printed (f a)) (outcome (f a))
  | SysExit c => Run (printed m) (SysExit c)
  | Uncaught e => Run (printed m) (Uncaught e)
  end.

(** [print(...)]: the message is appended to the log.  Writing to the
    standard output is taken to succeed; a [print] that raises (an output
    stream that cannot encode the text) is outside the model, so nothing
    here says which exceptions a run cannot end with. *)
Definition print (m : msg) : run unit := Run [m] (Return tt).
Definition sys_exit {A} (code : Z) : run A := Run [] (SysExit code).

(** A call outside any [try]: an exception escapes. *)
Definition unguarded {A} (r : res A) : run A :=
  match r with
  | Ok a => Run [] (Return a)
  | Raise e => Run [] (Uncaught e)
  end.

(** A [for] loop of prints. *)
Fixpoint for_run {A} (body : A -> run unit) (l : list A) : run unit :=
  match l with
  | [] => mret tt
  | a :: l' => _ ← body a; for_run body l'
  end.

(** Lines 55-83. *)
Definition load_package_json (f : file) : run (pydict key json) :=
  match f with
  | Absent => _ ← print MsgManifestMissing; sys_exit 1
  | Unreadable e =>
      _ ← print MsgManifestFound; _ ← print (MsgManifestFailed e); sys_exit 1
  | Parsed pkg =>
      _ ← print MsgManifestFound;
      match parse_manifest pkg with
      | Ok cleaned_deps => mret cleaned_deps
      | Raise e => _ ← print (MsgManifestFailed e); sys_exit 1
      end
  end.

(** Lines 86-133. *)
Definition load_package_lock (f : file) : run (pydict pystr json) :=
  match f with
  | Absent => mret []
  | Unreadable e =>
      _ ← print MsgLockFound; _ ← print (MsgLockWarning e); mret []
  | Parsed lock =>
      _ ← print MsgLockFound;
      match parse_lock lock with
      | Ok all_packages => mret all_packages
      | Raise e => _ ← print (MsgLockWarning e); mret []
      end
  end.

(** Lines 37-52. *)
Definition load_infected_packages (f : csv_file)
  : run (gset (pystr * pystr)) :=
  match f with
  | CsvError e => _ ← print (MsgCsvFailed e); sys_exit 1
  | CsvRows rows =>
      match read_advisories rows with
      | Ok infected => mret infected
      | Raise e => _ ← print (MsgCsvFailed e); sys_exit 1
      end
  end.

(** Lines 185-187. *)
Definition merge_lock (installed_packages : pydict key json)
    (lock_packages : pydict pystr json) : pydict key json :=
  foldl (fun installed nv =>
           if dict_mem (KStr nv.1) installed then installed
           else dict_set (KStr nv.1) nv.2 installed)
        installed_packages lock_packages.

(** What the run finds outside the program. *)
Record world := World {
  test_mode : bool;        (* '--test' in sys.argv *)
  csv_exists : bool;       (* Path(CSV_FILE).exists(), asked in test mode *)
  download_ok : bool;      (* the result of download_csv() *)
  csv : csv_file;          (* the advisory file when it is read *)
  manifest : file;         (* package.json *)
  lock : file              (* package-lock.json *)
}.

(** Lines 22-34, the network aside. *)
Definition download_csv (w : world) : run bool :=
  _ ← print MsgDownloading;
  if download_ok w then _ ← print MsgDownloaded; mret true
  else _ ← print MsgDownloadFailed; mret false.

(** Lines 153-169: the advisory file is checked for (test mode) or
    downloaded. *)
Definition prepare_csv (w : world) : run unit :=
  if test_mode w
  then _ ← print MsgTestMode;
       if csv_exists w then mret tt
       else _ ← print MsgTestCsvMissing; sys_exit 1
  else ok ← download_csv w;
       if (ok : bool) then mret tt else sys_exit 1.

(** Lines 193-233: the advisory set is loaded, the installed set scanned
    and the result reported. *)
Definition scan_and_report (w : world) (installed_packages : pydict key json)
  : run unit :=
  infected_packages ← load_infected_packages (csv w);
  _ ← print (MsgAdvisoryCount (size infected_packages));
  infections ← unguarded (scan_packages installed_packages infected_packages);
  _ ← for_run (fun pv => print (MsgInfectedFound pv.1 pv.2)) infections;
  match infections with
  | [] => print MsgNoInfection
  | _ :: _ =>
      _ ← print (MsgInfectionCount (length infections));
      _ ← for_run (fun pv => print (MsgInfectedItem pv.1 pv.2)) infections;
      sys_exit 1
  end.

(** Lines 147-233. *)
Definition main (w : world) : run unit :=
  _ ← prepare_csv w;
  installed_packages ← load_package_json (manifest w);
  _ ← print (MsgManifestCount (length installed_packages));
  lock_packages ← load_package_lock (lock w);
  installed_packages ←
    match lock_packages with
    | _ :: _ =>
        _ ← print (MsgLockCount (length lock_packages));
        let merged := merge_lock installed_packages lock_packages in
        _ ← print (MsgTotalUnique (length merged));
        mret merged
    | [] => _ ← print MsgNoLock; mret installed_packages
    end;
  scan_and_report w installed_packages.

(** ** Reference definitions, worded as the specification *)

(** Section 4.1: strip the leading run of [^ ~ > = < space], then take the
    token up to the first remaining whitespace. *)
Fixpoint take_until_space (s : pystr) : pystr :=
  match s with
  | c :: s' => if is_space c then [] else c :: take_until_space s'
  | [] => []
  end.

Definition spec_normalize (v : pystr) : pystr :=
  take_until_space (lstrip (str "^~>=< ") v).

(** Section 4.2: the entries of one dependency category of a manifest. *)
Definition category (sections : list (pystr * json)) (dep_type : pystr)
  : list (pystr * json) :=
  match dict_get dep_type sections with
  | Some (JObj d) => d
  | _ => []
  end.



(** The stored form of a declared version. *)
Definition normalized (version : json) : option json :=
  match version with
  | JStr s => match clean_version s with
              | Ok t => Some (JStr t)
              | Raise _ => None
              end
  | _ => None
  end.


(** A tree on which the traversal does not raise: every [dependencies]
    field met on the way is an object. *)
Inductive tree_shape : json -> Prop :=
| tree_shape_obj items :
    (forall name d sub,
        In (name, JObj d) items ->
        dict_get (str "dependencies") d = Some sub -> tree_shape sub) ->
    tree_shape (JObj items).

(** The entries with a version in the order the traversal meets them: an
    entry before the entries nested in it, these before its next sibling. *)
Fixpoint visits (deps_dict : json) : list (pystr * json) :=
  match deps_dict with
  | JObj items =>
      (fix loop (l : list (pystr * json)) : list (pystr * json) :=
         match l with
         | [] => []
         | (name, info) :: l' =>
             match info with
             | JObj d =>
                 match dict_get (str "version") d with
                 | Some v => [(name, v)]
                 | None => []
                 end
                 ++ (fix lookup_rec (d' : list (pystr * json)) :=
                       match d' with
                       | [] => []
                       | (k, sub) :: d'' =>
                           if decide (str "dependencies" = k)
                           then visits sub
                           else lookup_rec d''
                       end) d
                 ++ loop l'
             | _ => loop l'
             end
         end) items
  | _ => []
  end.

(** The version of the last visit of [name], if any. *)
Definition last_visit (name : pystr) (l : list (pystr * json)) : option json :=
  foldl (fun found nv => if decide (name = nv.1) then Some nv.2 else found)
        None l.

(** [sep.join(pieces)] *)
Fixpoint join (sep : pystr) (pieces : list pystr) : pystr :=
  match pieces with
  | [] => []
  | [p] => p
  | p :: ps => p ++ sep ++ join sep ps
  end.

(** A dictionary whose keys and values are strings, as a dictionary of
    Python values. *)
Definition of_strings (d : list (pystr * pystr)) : pydict key json :=
  map (fun nv => (KStr nv.1, JStr nv.2)) d.

(** The entries of an installed set that the matcher reports. *)
Definition is_match (infected : gset (pystr * pystr)) (nv : key * json)
  : bool :=
  match nv with
  | (KStr n, JStr v) => bool_decide ((n, v) ∈ infected)
  | _ => false
  end.

(** [hash(v)] does not raise. *)
Definition hashable (v : json) : Prop :=
  match v with
  | JArr _ | JObj _ => False
  | _ => True
  end.

(** ** Definitions used in the statements *)

(** The shape of a version and of its token. *)
Definition token_of (v t : pystr) : Prop :=
  exists pre ws tail,
    v = pre ++ ws ++ t ++ tail /\
    Forall (fun c => mem_char c comparators = true) pre /\
    (forall c, head (ws ++ t) = Some c -> mem_char c comparators = false) /\
    Forall (fun c => is_space c = true) ws /\
    t <> [] /\
    Forall (fun c => is_space c = false) t /\
    (forall c, head tail = Some c -> is_space c = true).

Definition string_entries (d : list (pystr * json)) : pydict key json :=
  map (fun kv => (KStr kv.1, kv.2)) d.



(** The body of the loop of [extract_deps] for one entry. *)
Definition extract_entry (all_packages : pydict pystr json)
    (entry : pystr * json) : res (pydict pystr json) :=
  match entry.2 with
  | JObj d =>
      let acc1 := match dict_get (str "version") d with
                  | Some v => dict_set entry.1 v all_packages
                  | None => all_packages
                  end in
      match dict_get (str "dependencies") d with
      | Some sub => extract_deps sub acc1
      | None => Ok acc1
      end
  | _ => Ok all_packages
  end.

(** The visits caused by one entry. *)
Definition visit_entry (entry : pystr * json) : list (pystr * json) :=
  match entry.2 with
  | JObj d =>
      match dict_get (str "version") d with
      | Some v => [(entry.1, v)]
      | None => []
      end
      ++ match dict_get (str "dependencies") d with
         | Some sub => visits sub
         | None => []
         end
  | _ => []
  end.

(** ** Example documents *)

Definition manifest_empty_version : json :=
  JObj [(str "dependencies", JObj [(str "a", JStr [])])].

Definition world_empty_version : world :=
  World true true true
        (CsvRows [[str "package"; str "version"]])
        (Parsed manifest_empty_version) Absent.

Definition manifest_two_categories : list (pystr * json) :=
  [(str "dependencies", JObj [(str "a", JStr (str "1.0.0"))]);
   (str "devDependencies", JObj [(str "a", JStr (str "2.0.0"))])].

Definition manifest_a : pydict key json :=
  of_strings [(str "a", str "1.0.0")].

Definition lock_a_b : pydict pystr json :=
  [(str "a", JStr (str "2.0.0")); (str "b", JStr (str "3.0.0"))].

Definition advisory_left_pad : gset (pystr * pystr) :=
  {[ (str "left-pad", str "1.3.0") ]}.

Definition world_unreadable_lock : world :=
  World true true true
        (CsvRows [[str "package"; str "version"]; [str "react"; str "19.1.1"]])
        (Parsed (JObj [(str "dependencies",
                        JObj [(str "react", JStr (str "^19.1.1"))])]))
        (Unreadable ValueError).


Definition tree_same_name : json :=
  JObj [(str "a",
         JObj [(str "version", JStr (str "1.0.0"));
               (str "dependencies",
                JObj [(str "a", JObj [(str "version", JStr (str "2.0.0"))])])]);
        (str "b", JObj [(str "version", JStr (str "3.0.0"))])].


Definition lock_scoped_nested : json :=
  JObj [(str "packages",
         JObj [(str "node_modules/@scope/pkg",
                JObj [(str "version", JStr (str "1.0.0"))]);
               (str "node_modules/@scope/pkg/node_modules/sub",
                JObj [(str "version", JStr (str "2.0.0"))])])].

(** ** Definitions for the further properties *)

(** A concrete version token: not empty, free of whitespace, and not
    starting with one of [^ ~ > = <]. *)
Definition concrete (t : pystr) : Prop :=
  t <> [] /\
  Forall (fun c => is_space c = false) t /\
  (forall c, head t = Some c -> mem_char c comparators = false).

(** A string with no whitespace at either end. *)
Definition trimmed (s : pystr) : Prop :=
  (forall c, head s = Some c -> is_space c = false) /\
  (forall c, last s = Some c -> is_space c = false).

(** What one entry of [lock['packages']] records: nothing for the root
    path or without a version, else its name and version. *)
Definition path_entry (entry : pystr * json) : list (pystr * json) :=
  if bool_decide (entry.1 = []) then []
  else match entry.2 with
       | JObj d => match dict_get (str "version") d with
                   | Some v => [(package_name_of entry.1, v)]
                   | None => []
                   end
       | _ => []
       end.

Definition path_visits (entries : list (pystr * json)) : list (pystr * json) :=
  flat_map path_entry entries.

(** A [packages] object of the documented shape: the metadata of every
    entry but the root is an object. *)
Definition packages_shape (entries : list (pystr * json)) : Prop :=
  forall package_path package_info,
    In (package_path, package_info) entries -> package_path <> [] ->
    exists d, package_info = JObj d.

(** A stored version: a string, not empty, free of whitespace. *)
Definition stored_version (v : json) : Prop :=
  exists t, v = JStr t /\ t <> [] /\ Forall (fun c => is_space c = false) t.

(** The same run with another advisory file and another lock file. *)
Definition with_files (w : world) (c : csv_file) (l : file) : world :=
  World (test_mode w) (csv_exists w) (download_ok w) c (manifest w) l.

Definition lock_both_shapes : list (pystr * json) :=
  [(str "packages",
    JObj [([], JObj [(str "version", JStr (str "0.1.0"))]);
          (str "node_modules/a", JObj [(str "version", JStr (str "1.0.0"))]);
          (str "node_modules/c", JObj [(str "resolved", JStr (str "url"))])]);
   (str "dependencies",
    JObj [(str "a", JObj [(str "version", JStr (str "2.0.0"))]);
          (str "b", JObj [(str "version", JStr (str "3.0.0"))])])].

Definition lock_bad_tree : list (pystr * json) :=
  [(str "packages",
    JObj [(str "node_modules/a", JObj [(str "version", JStr (str "1.0.0"))])]);
   (str "dependencies",
    JObj [(str "b", JObj [(str "version", JStr (str "3.0.0"));
                          (str "dependencies", JArr [])])])].

Definition world_shadowed : world :=
  World true true true
        (CsvRows [[str "package"; str "version"]; [str "a"; str "2.0.0"]])
        (Parsed (JObj [(str "dependencies",
                        JObj [(str "a", JStr (str "^1.0.0"))])]))
        (Parsed (JObj [(str "packages",
                        JObj [(str "node_modules/a",
                               JObj [(str "version", JStr (str "2.0.0"))])])])).


Definition world_leading_space : world :=
  World true true true
        (CsvRows [[str "package"; str "version"]; [str "react"; str "19.1.1"]])
        (Parsed (JObj [(str "dependencies",
                        JObj [(str "react", JStr (str " ^19.1.1"))])]))
        Absent.

(** ** Tactics for concrete documents *)


Ltac concrete_tree :=
  repeat
    (constructor;
     let Hin := fresh "Hin" in
     let Hg := fresh "Hg" in
     intros ? ? ? Hin Hg;
     repeat (destruct Hin as [Hin|Hin];
             [injection Hin as <- <-; vm_compute in Hg;
              try discriminate Hg; injection Hg as <-|]);
     try destruct Hin).

Ltac concrete_packages :=
  let Hin := fresh "Hin" in
  let Hne := fresh "Hne" in
  intros ? ? Hin Hne;
  repeat (destruct Hin as [Hin|Hin];
          [injection Hin as <- <-; try (eexists; reflexivity);
           try (exfalso; apply Hne; reflexivity)|]);
  destruct Hin.

(** * Properties *)

(** ** Strings *)

Lemma lstrip_by_split (p : char -> bool) (s : pystr) :
  exists pre,
    s = pre ++ lstrip_by p s /\
    Forall (fun c => p c = true) pre /\
    (forall c, head (lstrip_by p s) = Some c -> p c = false).
Proof.
  induction s as [|c s IH]; simpl.
  - exists []. repeat split; [constructor | discriminate].
  - destruct (p c) eqn:Hc.
    + destruct IH as (pre & Heq & Hpre & Hhd).
      exists (c :: pre). repeat split; auto.
      simpl. congruence.
    + exists []. repeat split; [constructor |].
      simpl. intros c' [= <-]. exact Hc.
Qed.

Lemma lstrip_by_app (p : char -> bool) (pre rest : pystr) :
  Forall (fun c => p c = true) pre ->
  (forall c, head rest = Some c -> p c = false) ->
  lstrip_by p (pre ++ rest) = rest.
Proof.
  intros Hpre Hrest. induction Hpre as [|c pre Hc _ IH]; simpl.
  - destruct rest as [|c rest]; [reflexivity|].
    simpl. rewrite (Hrest c eq_refl). reflexivity.
  - rewrite Hc. exact IH.
Qed.

Lemma split_ws_skip (ws s : pystr) :
  Forall (fun c => is_space c = true) ws ->
  split_ws (ws ++ s) = split_ws s.
Proof.
  induction 1 as [|c ws Hc _ IH]; simpl; [reflexivity|].
  rewrite Hc. exact IH.
Qed.

Lemma split_ws_token (t tail : pystr) :
  t <> [] ->
  Forall (fun c => is_space c = false) t ->
  (forall c, head tail = Some c -> is_space c = true) ->
  split_ws (t ++ tail) = t :: split_ws tail.
Proof.
  intros Hne Ht Htail. induction Ht as [|c t Hc Ht IH]; [congruence|].
  cbn [app split_ws]. rewrite Hc.
  destruct t as [|c' t].
  - simpl. destruct tail as [|c' tail]; [reflexivity|].
    rewrite (Htail c' eq_refl). reflexivity.
  - inversion Ht as [|? ? Hc' _]; subst.
    cbn [app]. rewrite Hc'.
    change (c' :: t ++ tail) with ((c' :: t) ++ tail).
    rewrite IH by discriminate. reflexivity.
Qed.

Lemma split_ws_first (s t : pystr) (ts : list pystr) :
  split_ws s = t :: ts ->
  exists ws tail,
    s = ws ++ t ++ tail /\
    Forall (fun c => is_space c = true) ws /\
    t <> [] /\
    Forall (fun c => is_space c = false) t /\
    (forall c, head tail = Some c -> is_space c = true) /\
    ts = split_ws tail.
Proof.
  revert t ts. induction s as [|c s IH]; intros t ts; [discriminate|].
  cbn [split_ws]. destruct (is_space c) eqn:Hc.
  - intros H. destruct (IH _ _ H) as (ws & tail & -> & Hws & Ht).
    exists (c :: ws), tail. split; [reflexivity|]. split; [|exact Ht].
    constructor; assumption.
  - destruct s as [|c' s].
    + intros [= <- <-]. exists [], []. simpl.
      repeat split; auto; try discriminate.
    + destruct (is_space c') eqn:Hc'.
      * intros [= <- <-]. exists [], (c' :: s). simpl.
        repeat split; auto; try discriminate.
        intros ? [= <-]. exact Hc'.
      * destruct (split_ws (c' :: s)) as [|t' ts'] eqn:Hs.
        { exfalso. revert Hs. cbn [split_ws]. rewrite Hc'.
          destruct s as [|c2 s]; [discriminate|].
          destruct (is_space c2); [discriminate|].
          destruct (split_ws (c2 :: s)); discriminate. }
        intros [= <- <-].
        destruct (IH _ _ eq_refl) as (ws & tail & Heq & Hws & Hne & Ht & Htl & Hts).
        destruct ws as [|w ws].
        -- simpl in Heq. exists [], tail. simpl. rewrite Heq.
           repeat split; auto; try discriminate.
        -- exfalso. inversion Hws as [|? ? Hw _]; subst.
           simpl in Heq. injection Heq as <- _. congruence.
Qed.

Lemma mem_char_space (c : char) :
  mem_char c comparators = true -> is_space c = false.
Proof.
  assert (E : comparators = [94; 126; 62; 61; 60]) by reflexivity.
  unfold mem_char. rewrite E. simpl existsb.
  rewrite !orb_true_iff, !N.eqb_eq.
  intros [->|[->|[->|[->|[->|[=]]]]]]; reflexivity.
Qed.

(** The first token of a string with nothing but whitespace is missing. *)
Lemma split_ws_blank (ws : pystr) :
  Forall (fun c => is_space c = true) ws -> split_ws ws = [].
Proof.
  intros H. rewrite <- (app_nil_r ws). rewrite split_ws_skip by exact H.
  reflexivity.
Qed.

Lemma split_ws_nil (s : pystr) :
  split_ws s = [] -> Forall (fun c => is_space c = true) s.
Proof.
  induction s as [|c s IH]; [constructor|].
  cbn [split_ws]. destruct (is_space c) eqn:Hc.
  - intros H. constructor; auto.
  - destruct s as [|c' s]; [discriminate|].
    destruct (is_space c'); [discriminate|].
    destruct (split_ws (c' :: s)); discriminate.
Qed.

(** ** C1: version normalisation *)

Lemma clean_version_token (v t : pystr) :
  clean_version v = Ok t <-> token_of v t.
Proof.
  unfold clean_version, lstrip, token_of. split.
  - destruct (lstrip_by_split (fun c => mem_char c comparators) v)
      as (pre & Hv & Hpre & Hhd).
    destruct (split_ws _) as [|t' ts] eqn:Hsp; [discriminate|].
    intros [= ->].
    destruct (split_ws_first _ _ _ Hsp) as (ws & tail & Hr & Hws & Hne & Ht & Htl & _).
    exists pre, ws, tail. rewrite Hr in Hv, Hhd.
    repeat split; auto.
    intros c Hc. apply Hhd. rewrite app_assoc.
    destruct (ws ++ t); [discriminate|]. exact Hc.
  - intros (pre & ws & tail & -> & Hpre & Hhd & Hws & Hne & Ht & Htl).
    rewrite lstrip_by_app; [|exact Hpre|].
    + rewrite split_ws_skip by exact Hws.
      rewrite split_ws_token by assumption. reflexivity.
    + intros c Hc. apply Hhd. rewrite app_assoc in Hc.
      destruct (ws ++ t) eqn:E; [|exact Hc].
      destruct ws; [|discriminate]. simpl in E. congruence.
Qed.

(** C1, on the input the specification names.  The stated rule gives
    ["2.0.0"]; line 77 strips nothing from a version that starts with
    spaces and returns the comparator ["="] as the version, which is what
    the manifest parser then stores. *)
Lemma clean_version_leading_space :
  clean_version (str "   = 2.0.0") = Ok (str "=") /\
  spec_normalize (str "   = 2.0.0") = str "2.0.0" /\
  clean_version (str "   = 2.0.0") <> Ok (spec_normalize (str "   = 2.0.0")) /\
  parse_manifest
    (JObj [(str "dependencies", JObj [(str "a", JStr (str "   = 2.0.0"))])])
  = Ok [(KStr (str "a"), JStr (str "="))].
Proof. repeat split; try reflexivity. vm_compute. discriminate. Qed.

(** What line 77 computes, on every input: [clean_version v] is the token
    [t] exactly when [v] is a run of the characters [^ ~ > = <] (the
    longest one: what follows does not start with one of them), then a
    run of whitespace, then the token [t], non-empty and free of
    whitespace, then nothing or something that starts with whitespace. *)
Theorem clean_version_spec :
  (forall v t : pystr,
      clean_version v = Ok t <->
      exists pre ws tail,
        v = pre ++ ws ++ t ++ tail /\
        Forall (fun c => mem_char c comparators = true) pre /\
        (forall c, head (ws ++ t) = Some c -> mem_char c comparators = false) /\
        Forall (fun c => is_space c = true) ws /\
        t <> [] /\
        Forall (fun c => is_space c = false) t /\
        (forall c, head tail = Some c -> is_space c = true)) /\
  clean_version (str "^1.2.3") = Ok (str "1.2.3") /\
  clean_version (str ">= 2.0.0") = Ok (str "2.0.0") /\
  clean_version (str "   = 2.0.0") = Ok (str "=").
Proof.
  split; [exact clean_version_token | repeat split].
Qed.

(** ** Dictionaries *)

Section DictFacts.
Context {K V : Type} `{EqDecision K}.
Implicit Types (d items : list (K * V)) (k : K) (v : V).

Lemma dict_get_set k k' v d :
  dict_get k' (dict_set k v d)
  = if decide (k' = k) then Some v else dict_get k' d.
Proof.
  induction d as [|[k0 v0] d IH]; simpl.
  - destruct (decide (k' = k)); reflexivity.
  - destruct (decide (k = k0)) as [->|Hne]; simpl.
    + destruct (decide (k' = k0)); reflexivity.
    + destruct (decide (k' = k0)) as [->|Hne'].
      * destruct (decide (k0 = k)); [congruence | reflexivity].
      * exact IH.
Qed.

Lemma dict_get_None k d : dict_get k d = None <-> k ∉ d.*1.
Proof.
  induction d as [|[k0 v0] d IH]; simpl.
  - split; [intros _; apply not_elem_of_nil | reflexivity].
  - rewrite not_elem_of_cons. destruct (decide (k = k0)) as [->|Hne].
    + split; [discriminate | intros [? _]; congruence].
    + rewrite IH. tauto.
Qed.

Lemma dict_get_In k v d : dict_get k d = Some v -> In (k, v) d.
Proof.
  induction d as [|[k0 v0] d IH]; simpl; [discriminate|].
  destruct (decide (k = k0)) as [->|Hne].
  - intros [= ->]. left. reflexivity.
  - intros Hg. right. exact (IH Hg).
Qed.

Lemma dict_get_NoDup k v d :
  NoDup d.*1 -> In (k, v) d -> dict_get k d = Some v.
Proof.
  induction d as [|[k0 v0] d IH]; simpl; [intros _ []|].
  rewrite NoDup_cons. intros [Hnotin Hnd] [[= -> ->]|Hin].
  - destruct (decide (k = k)); [reflexivity | congruence].
  - destruct (decide (k = k0)) as [->|Hne]; [|auto].
    exfalso. apply Hnotin. apply list_elem_of_fmap.
    exists (k0, v). split; [reflexivity|]. apply list_elem_of_In. exact Hin.
Qed.

(** A new key is appended. *)
Lemma dict_set_new k v d : dict_get k d = None -> dict_set k v d = d ++ [(k, v)].
Proof.
  induction d as [|[k0 v0] d IH]; simpl; [reflexivity|].
  destruct (decide (k = k0)); [discriminate|].
  intros Hg. rewrite IH by exact Hg. reflexivity.
Qed.

Lemma dict_set_keys k v d :
  (dict_set k v d).*1 = if dict_mem k d then d.*1 else d.*1 ++ [k].
Proof.
  unfold dict_mem. induction d as [|[k0 v0] d IH]; [reflexivity|].
  cbn [dict_set dict_get].
  destruct (decide (k = k0)) as [->|Hne]; [reflexivity|].
  rewrite !fmap_cons, IH. destruct (dict_get k d); reflexivity.
Qed.

Lemma dict_set_NoDup k v d : NoDup d.*1 -> NoDup (dict_set k v d).*1.
Proof.
  intros Hnd. rewrite dict_set_keys. unfold dict_mem.
  destruct (dict_get k d) eqn:Hg; [exact Hnd|].
  apply NoDup_app. repeat split; [exact Hnd | | apply NoDup_singleton].
  intros x Hx ->%list_elem_of_singleton.
  apply dict_get_None in Hg. contradiction.
Qed.


End DictFacts.

Lemma for_each_raises {A S : Type} (body : S -> A -> res S) (x : A)
    (l : list A) :
  (forall s, exists e, body s x = Raise e) ->
  In x l ->
  forall s, exists e, for_each body l s = Raise e.
Proof.
  intros Hx. induction l as [|a l IH]; [intros []|].
  intros [->|Hin] s; simpl.
  - destruct (Hx s) as [e He]. rewrite He. exists e. reflexivity.
  - destruct (body s a) as [s'|e]; simpl; [apply IH; exact Hin|].
    exists e. reflexivity.
Qed.

(** ** C9: a version without a token aborts the run *)

Lemma clean_version_no_token (pre ws : pystr) :
  Forall (fun c => mem_char c comparators = true) pre ->
  Forall (fun c => is_space c = true) ws ->
  clean_version (pre ++ ws) = Raise IndexError.
Proof.
  intros Hpre Hws. unfold clean_version, lstrip.
  rewrite lstrip_by_app; [|exact Hpre|].
  - rewrite split_ws_blank by exact Hws. reflexivity.
  - intros c Hc. destruct ws as [|c' ws]; [discriminate|].
    injection Hc as ->. inversion Hws as [|? ? Hsp _]; subst.
    destruct (mem_char c comparators) eqn:E; [|reflexivity].
    apply mem_char_space in E. congruence.
Qed.

Lemma prepare_csv_outcome (w : world) :
  outcome (prepare_csv w) = Return tt \/ outcome (prepare_csv w) = SysExit 1.
Proof.
  unfold prepare_csv, download_csv.
  destruct (test_mode w), (csv_exists w), (download_ok w); cbn; auto.
Qed.

(** C9.  When the dependencies collected from a manifest hold a version
    that is a run of [^ ~ > = <] followed by nothing but whitespace (the
    empty string among them), line 77 has no token to take: the
    [IndexError] is caught as a parse failure and the run exits with
    status 1 before anything is scanned. *)
Theorem missing_token_aborts (w : world) (pkg : json)
    (all_deps : pydict key json) (name : key) (pre ws : pystr) :
  manifest w = Parsed pkg ->
  collect_deps pkg = Ok all_deps ->
  In (name, JStr (pre ++ ws)) all_deps ->
  Forall (fun c => mem_char c comparators = true) pre ->
  Forall (fun c => is_space c = true) ws ->
  clean_version (pre ++ ws) = Raise IndexError /\
  (exists e,
      load_package_json (manifest w)
      = Run [MsgManifestFound; MsgManifestFailed e] (SysExit 1) /\
      (outcome (prepare_csv w) = Return tt ->
       printed (main w)
       = printed (prepare_csv w) ++ [MsgManifestFound; MsgManifestFailed e])) /\
  outcome (main w) = SysExit 1.
Proof.
  intros Hm Hcol Hin Hpre Hws.
  pose proof (clean_version_no_token pre ws Hpre Hws) as Hraise.
  split; [exact Hraise|].
  assert (exists e, parse_manifest pkg = Raise e) as [e He].
  { unfold parse_manifest. rewrite Hcol. cbn. unfold clean_deps.
    apply for_each_raises with (x := (name, JStr (pre ++ ws))); [|exact Hin].
    intros s. exists IndexError. cbn. rewrite Hraise. reflexivity. }
  assert (Hload : load_package_json (manifest w)
                  = Run [MsgManifestFound; MsgManifestFailed e] (SysExit 1)).
  { rewrite Hm. unfold load_package_json. rewrite He. reflexivity. }
  split.
  - exists e. split; [exact Hload|].
    intros Hprep. unfold main. rewrite Hload.
    destruct (prepare_csv w) as [l o]. cbn in *. subst o. reflexivity.
  - unfold main. rewrite Hload.
    destruct (prepare_csv_outcome w) as [Ho|Ho];
      destruct (prepare_csv w) as [l o]; cbn in *; subst o; reflexivity.
Qed.

Lemma missing_token_aborts_witness :
  manifest world_empty_version = Parsed manifest_empty_version /\
  collect_deps manifest_empty_version = Ok [(KStr (str "a"), JStr [])] /\
  clean_version [] = Raise IndexError /\
  load_package_json (manifest world_empty_version)
  = Run [MsgManifestFound; MsgManifestFailed IndexError] (SysExit 1) /\
  outcome (main world_empty_version) = SysExit 1.
Proof.
  split; [reflexivity|]. split; [reflexivity|].
  destruct (missing_token_aborts world_empty_version manifest_empty_version
              [(KStr (str "a"), JStr [])] (KStr (str "a")) [] []
              eq_refl eq_refl (or_introl eq_refl)
              (Forall_nil_2 _) (Forall_nil_2 _)) as (H1 & _ & H3).
  split; [exact H1|]. split; [reflexivity | exact H3].
Defined.

(** ** C5: the manifest parser *)

Lemma string_entries_keys (d : list (pystr * json)) :
  (string_entries d).*1 = KStr <$> d.*1.
Proof.
  unfold string_entries. induction d as [|[k v] d IH]; [reflexivity|].
  cbn. f_equal. exact IH.
Qed.











Lemma normalized_is_Some (j : json) :
  is_Some (normalized j) -> exists t, clean_value j = Ok t.
Proof.
  intros [j' Hj]. destruct j; cbn in *; try discriminate.
  destruct (clean_version s) as [t|]; [eauto | discriminate].
Qed.

Lemma filter_ext_elem {A : Type} (P Q : A -> Prop)
    `{forall x, Decision (P x)} `{forall x, Decision (Q x)} (l : list A) :
  (forall x, x ∈ l -> P x <-> Q x) -> filter P l = filter Q l.
Proof.
  induction l as [|a l IH]; intros Hext; [reflexivity|].
  rewrite !filter_cons.
  assert (Ha : P a <-> Q a) by (apply Hext; left).
  rewrite IH by (intros x Hx; apply Hext; right; exact Hx).
  destruct (decide (P a)), (decide (Q a)); tauto || reflexivity.
Qed.


Lemma clean_loop_total (l : pydict key json) :
  (forall k j, In (k, j) l -> is_Some (normalized j)) ->
  forall acc, exists cleaned,
    for_each (fun cleaned nv =>
                clean ← clean_value nv.2;
                Ok (dict_set nv.1 (JStr clean) cleaned)) l acc = Ok cleaned.
Proof.
  induction l as [|[k0 j0] l IH]; intros Hall acc; [eexists; reflexivity|].
  cbn [for_each]. cbn [fst snd].
  destruct (normalized_is_Some j0) as [t Ht].
  { apply (Hall k0). left. reflexivity. }
  rewrite Ht. cbn. apply IH. intros k j Hin. apply (Hall k). right. exact Hin.
Qed.




(** ** C4: the installed set *)

Lemma dict_mem_elem {K V : Type} `{EqDecision K} (k : K) (d : list (K * V)) :
  dict_mem k d = true <-> k ∈ d.*1.
Proof.
  unfold dict_mem. destruct (dict_get k d) eqn:Hg.
  - split; [intros _|reflexivity].
    destruct (decide (k ∈ d.*1)) as [|Hn]; [assumption|].
    apply dict_get_None in Hn. congruence.
  - apply dict_get_None in Hg. split; [discriminate | contradiction].
Qed.

(** The merge loop from any state of [installed_packages]. *)
Lemma merge_lock_app (installed : pydict key json)
    (lock_packages : pydict pystr json) :
  NoDup lock_packages.*1 ->
  merge_lock installed lock_packages
  = installed
    ++ string_entries
         (filter (fun nv => KStr nv.1 ∉ installed.*1) lock_packages).
Proof.
  unfold merge_lock. revert installed.
  induction lock_packages as [|[n v] l IH]; intros installed Hnd.
  - cbn. rewrite app_nil_r. reflexivity.
  - rewrite fmap_cons, NoDup_cons in Hnd. destruct Hnd as [Hnotin Hnd].
    cbn [fst] in Hnotin. cbn [foldl fst snd]. rewrite filter_cons. cbn [fst].
    destruct (dict_mem (KStr n) installed) eqn:Hmem.
    + apply dict_mem_elem in Hmem.
      destruct (decide (KStr n ∉ installed.*1)); [contradiction|].
      apply IH. exact Hnd.
    + assert (Hn : KStr n ∉ installed.*1).
      { intros Hin. apply dict_mem_elem in Hin. congruence. }
      destruct (decide (KStr n ∉ installed.*1)); [|contradiction].
      rewrite IH by exact Hnd.
      rewrite dict_set_new by (apply dict_get_None; exact Hn).
      rewrite <- app_assoc. cbn. f_equal. f_equal. f_equal.
      apply filter_ext_elem. intros [n' v'] Hin. cbn [fst].
      rewrite fmap_app, not_elem_of_app. cbn.
      rewrite list_elem_of_singleton.
      split; [tauto|]. intros Hn'. split; [exact Hn'|].
      intros [= ->]. apply Hnotin. apply list_elem_of_fmap.
      exists (n, v'). split; [reflexivity | exact Hin].
Qed.

Lemma dict_get_app {K V : Type} `{EqDecision K} (k : K) (d1 d2 : list (K * V)) :
  dict_get k (d1 ++ d2)
  = match dict_get k d1 with Some v => Some v | None => dict_get k d2 end.
Proof.
  induction d1 as [|[k0 v0] d1 IH]; [reflexivity|]. cbn.
  destruct (decide (k = k0)); [reflexivity | exact IH].
Qed.

Lemma dict_get_lock_only (k : key) (M : pydict key json)
    (L : pydict pystr json) :
  k ∉ M.*1 ->
  dict_get k (string_entries (filter (fun nv => KStr nv.1 ∉ M.*1) L))
  = dict_get k (string_entries L).
Proof.
  intros Hk. unfold string_entries.
  induction L as [|[n v] L IH]; [reflexivity|].
  rewrite filter_cons. cbn [fst snd map dict_get].
  destruct (decide (KStr n ∉ M.*1)) as [Hp|Hp]; cbn [fst snd map dict_get].
  - rewrite IH. reflexivity.
  - destruct (decide (k = KStr n)) as [->|_]; [contradiction | exact IH].
Qed.

(** C4.  With the lock-derived mapping [L] (a dict: distinct names) merged
    into the manifest-derived mapping [M], the installed set is [M]
    followed by the entries of [L] whose names [M] does not have, in the
    order of [L]; a lookup answers from [M] first and from [L] only for
    the names missing in [M]. *)
Theorem merge_lock_precedence (M : pydict key json) (L : pydict pystr json) :
  NoDup L.*1 ->
  merge_lock M L
  = M ++ string_entries (filter (fun nv => KStr nv.1 ∉ M.*1) L) /\
  (forall k, dict_get k (merge_lock M L)
             = match dict_get k M with
               | Some v => Some v
               | None => dict_get k (string_entries L)
               end) /\
  (merge_lock M L).*1
  = M.*1 ++ filter (fun k => k ∉ M.*1) (KStr <$> L.*1).
Proof.
  intros Hnd. rewrite merge_lock_app by exact Hnd. split; [reflexivity|]. split.
  - intros k. rewrite dict_get_app.
    destruct (dict_get k M) eqn:Hg; [reflexivity|].
    apply dict_get_None in Hg. apply dict_get_lock_only. exact Hg.
  - rewrite fmap_app. f_equal. rewrite string_entries_keys.
    clear Hnd. induction L as [|[n v] L IH]; [reflexivity|].
    rewrite !fmap_cons, !filter_cons. cbn [fst].
    destruct (decide (KStr n ∉ M.*1)); rewrite ?fmap_cons, IH; reflexivity.
Qed.

Lemma merge_lock_precedence_witness :
  NoDup lock_a_b.*1 /\
  merge_lock manifest_a lock_a_b
  = of_strings [(str "a", str "1.0.0"); (str "b", str "3.0.0")] /\
  merge_lock manifest_a lock_a_b
  = manifest_a
    ++ string_entries (filter (fun nv => KStr nv.1 ∉ manifest_a.*1) lock_a_b).
Proof.
  assert (Hnd : NoDup lock_a_b.*1)
    by (apply (bool_decide_unpack _); vm_compute; exact I).
  split; [exact Hnd|]. split; [reflexivity|].
  exact (proj1 (merge_lock_precedence manifest_a lock_a_b Hnd)).
Defined.

(** ** C2: the matcher *)

Lemma is_infected_hashable (infected : gset (pystr * pystr)) (nv : key * json) :
  hashable nv.2 -> is_infected infected nv.1 nv.2 = Ok (is_match infected nv).
Proof.
  destruct nv as [[n|z|] v]; destruct v; cbn; intros Hh; try reflexivity;
    destruct Hh.
Qed.

Lemma is_infected_unhashable (infected : gset (pystr * pystr)) (nv : key * json) :
  ~ hashable nv.2 -> is_infected infected nv.1 nv.2 = Raise TypeError.
Proof.
  destruct nv as [k v]; destruct v; cbn; intros Hh; try reflexivity;
    exfalso; apply Hh; exact I.
Qed.

Lemma scan_loop (infected : gset (pystr * pystr)) (installed : pydict key json) :
  Forall (fun nv => hashable nv.2) installed ->
  forall found,
    for_each (fun found_infections nv =>
                hit ← is_infected infected nv.1 nv.2;
                Ok (if (hit : bool) then found_infections ++ [nv]
                    else found_infections)) installed found
    = Ok (found ++ filter (fun nv => is_match infected nv) installed).
Proof.
  induction 1 as [|nv l Hh _ IH]; intros found.
  - cbn. rewrite app_nil_r. reflexivity.
  - cbn [for_each]. rewrite is_infected_hashable by exact Hh.
    cbn [mbind res_bind]. rewrite IH, filter_cons.
    destruct (is_match infected nv) eqn:Hm.
    + destruct (decide (is_match infected nv)) as [|Hn].
      * rewrite <- app_assoc. reflexivity.
      * exfalso. apply Hn. rewrite Hm. exact I.
    + destruct (decide (is_match infected nv)) as [Hy|]; [|reflexivity].
      rewrite Hm in Hy. destruct Hy.
Qed.

Lemma is_match_pair (infected : gset (pystr * pystr)) (nv : key * json) :
  is_match infected nv <->
  exists n v, nv = (KStr n, JStr v) /\ (n, v) ∈ infected.
Proof.
  destruct nv as [[n| |] v]; try destruct v; cbn;
    try (split; [intros [] | intros (? & ? & [=] & _)]).
  rewrite bool_decide_spec. split.
  - intros Hin. exists n, s. auto.
  - intros (? & ? & [= -> ->] & Hin). exact Hin.
Qed.

Lemma string_entries_hashable (L : pydict pystr json) :
  Forall (fun nv => hashable nv.2) L ->
  Forall (fun nv => hashable nv.2) (string_entries L).
Proof.
  unfold string_entries. induction 1; cbn; constructor; auto.
Qed.

(** C2.  On an installed mapping whose versions can be hashed (strings
    in particular), the matcher returns exactly the entries (n, v), both
    strings, whose pair belongs to the advisory set, in the order of the
    installed mapping; after a merge that order is: the manifest-derived
    entries, then the lock-only ones in the order of the lock mapping. *)
Theorem scan_packages_exact (installed : pydict key json)
    (lock_packages : pydict pystr json) (infected : gset (pystr * pystr)) :
  Forall (fun nv => hashable nv.2) installed ->
  Forall (fun nv => hashable nv.2) lock_packages ->
  NoDup lock_packages.*1 ->
  scan_packages installed infected
  = Ok (filter (fun nv => is_match infected nv) installed) /\
  (forall nv, nv ∈ filter (fun nv => is_match infected nv) installed <->
              nv ∈ installed /\
              exists n v, nv = (KStr n, JStr v) /\ (n, v) ∈ infected) /\
  scan_packages (merge_lock installed lock_packages) infected
  = Ok (filter (fun nv => is_match infected nv) installed
        ++ filter (fun nv => is_match infected nv)
             (string_entries
                (filter (fun nv => KStr nv.1 ∉ installed.*1) lock_packages))).
Proof.
  intros Hm Hl Hnd. unfold scan_packages. split; [|split].
  - rewrite scan_loop by exact Hm. reflexivity.
  - intros nv. rewrite list_elem_of_filter, is_match_pair. tauto.
  - rewrite merge_lock_app by exact Hnd. rewrite scan_loop.
    + cbn. rewrite filter_app. reflexivity.
    + apply Forall_app. split; [exact Hm|].
      apply string_entries_hashable.
      apply Forall_forall. intros nv [_ Hin]%list_elem_of_filter.
      rewrite Forall_forall in Hl. apply Hl. exact Hin.
Qed.

Lemma scan_loop_unhashable (infected : gset (pystr * pystr))
    (installed : pydict key json) :
  ~ Forall (fun nv => hashable nv.2) installed ->
  forall found,
    for_each (fun found_infections nv =>
                hit ← is_infected infected nv.1 nv.2;
                Ok (if (hit : bool) then found_infections ++ [nv]
                    else found_infections)) installed found
    = Raise TypeError.
Proof.
  induction installed as [|nv l IH]; intros Hn found.
  - exfalso. apply Hn. constructor.
  - cbn [for_each].
    assert (Hdec : hashable nv.2 \/ ~ hashable nv.2)
      by (destruct nv as [k []]; cbn; tauto).
    destruct Hdec as [Hh|Hh].
    + rewrite is_infected_hashable by exact Hh. cbn [mbind res_bind].
      apply IH. intros Hl. apply Hn. constructor; assumption.
    + rewrite is_infected_unhashable by exact Hh. reflexivity.
Qed.

(** A version that cannot be hashed lets the [TypeError] escape. *)
Lemma scan_packages_unhashable (installed : pydict key json)
    (infected : gset (pystr * pystr)) :
  ~ Forall (fun nv => hashable nv.2) installed ->
  scan_packages installed infected = Raise TypeError.
Proof. intros Hn. apply scan_loop_unhashable. exact Hn. Qed.

Lemma scan_packages_exact_witness :
  scan_packages (of_strings [(str "left-pad", str "1.3.0")]) advisory_left_pad
  = Ok (of_strings [(str "left-pad", str "1.3.0")]) /\
  scan_packages (of_strings [(str "left-pad", str "1.3.1")]) advisory_left_pad
  = Ok [] /\
  scan_packages (of_strings [(str "left-pad", str "1.3.0")]) advisory_left_pad
  = Ok (filter (fun nv => is_match advisory_left_pad nv)
               (of_strings [(str "left-pad", str "1.3.0")])).
Proof.
  split; [vm_compute; reflexivity|]. split; [vm_compute; reflexivity|].
  refine (proj1 (scan_packages_exact
                   (of_strings [(str "left-pad", str "1.3.0")]) []
                   advisory_left_pad _ _ _)).
  - repeat constructor.
  - constructor.
  - apply NoDup_nil_2.
Defined.

(** ** C7: the advisory loader *)

Lemma last_rev_head {A : Type} (l : list A) : last (rev l) = head l.
Proof.
  destruct l as [|a l]; [reflexivity|]. cbn. apply last_snoc.
Qed.

Lemma rstrip_by_split (p : char -> bool) (s : pystr) :
  exists suf,
    s = rstrip_by p s ++ suf /\
    Forall (fun c => p c = true) suf /\
    (forall c, last (rstrip_by p s) = Some c -> p c = false).
Proof.
  unfold rstrip_by.
  destruct (lstrip_by_split p (rev s)) as (pre & Heq & Hpre & Hhd).
  exists (rev pre). repeat split.
  - rewrite <- rev_app_distr, <- Heq, rev_involutive. reflexivity.
  - apply Forall_rev. exact Hpre.
  - intros c. rewrite last_rev_head. apply Hhd.
Qed.

(** [strip] removes the whitespace at both ends and nothing else. *)
Lemma strip_split (s : pystr) :
  exists l r,
    s = l ++ strip s ++ r /\
    Forall (fun c => is_space c = true) l /\
    Forall (fun c => is_space c = true) r /\
    (forall c, head (strip s) = Some c -> is_space c = false) /\
    (forall c, last (strip s) = Some c -> is_space c = false).
Proof.
  unfold strip.
  destruct (rstrip_by_split is_space s) as (r & Hs & Hr & Hlast).
  destruct (lstrip_by_split is_space (rstrip_by is_space s))
    as (l & Hl & Hpre & Hhd).
  exists l, r. repeat split; auto.
  - rewrite app_assoc, <- Hl. exact Hs.
  - intros c Hc. apply Hlast. rewrite Hl.
    destruct (lstrip_by is_space (rstrip_by is_space s)) as [|a t] eqn:E;
      [discriminate|].
    rewrite last_app. rewrite Hc. reflexivity.
Qed.

Lemma elem_of_add_rows (data : list (list pystr)) :
  forall (infected : gset (pystr * pystr)) (e : pystr * pystr),
    e ∈ foldl add_row infected data <->
    e ∈ infected \/ exists row, In row data /\ advisory_entry row = Some e.
Proof.
  induction data as [|row data IH]; intros infected e; cbn [foldl].
  - split; [auto | intros [H|(row & [] & _)]; exact H].
  - rewrite IH. unfold add_row. split.
    + intros [Hin|(row' & Hin & He)].
      * destruct (advisory_entry row) as [e'|] eqn:Hrow; [|auto].
        apply elem_of_union in Hin as [Hin|Hin]; [auto|].
        apply elem_of_singleton in Hin as ->. right. exists row. split; [left; reflexivity | exact Hrow].
      * right. exists row'. split; [right; exact Hin | exact He].
    + intros [Hin|(row' & [<-|Hin] & He)].
      * left. destruct (advisory_entry row); [|exact Hin].
        apply elem_of_union. left. exact Hin.
      * left. rewrite He. apply elem_of_union. right.
        apply elem_of_singleton. reflexivity.
      * right. exists row'. split; assumption.
Qed.

Lemma advisory_entry_Some (row : list pystr) (e : pystr * pystr) :
  advisory_entry row = Some e <->
  exists package version rest,
    row = package :: version :: rest /\
    e = (strip package, lstrip (str "= ") (strip version)).
Proof.
  destruct row as [|package [|version rest]]; cbn.
  - split; [discriminate | intros (? & ? & ? & [=] & _)].
  - split; [discriminate | intros (? & ? & ? & [=] & _)].
  - split.
    + intros [= <-]. exists package, version, rest. auto.
    + intros (? & ? & ? & [= <- <- <-] & ->). reflexivity.
Qed.

(** C7.  The loader drops the first row; a later row contributes the pair
    (name trimmed, version trimmed and then stripped of leading [=] and
    space characters) exactly when it has two columns or more; shorter
    rows contribute nothing.  The row [evil-pkg,1.0.0,malware] (a line
    without quotes, which [csv.reader] cuts at its commas) gives
    ([evil-pkg], [1.0.0]). *)
Theorem load_infected_packages_rows :
  (forall (header : list pystr) (data : list (list pystr)),
      exists infected,
        load_infected_packages (CsvRows (header :: data))
        = Run [] (Return infected) /\
        forall n v,
          (n, v) ∈ infected <->
          exists package version rest,
            In (package :: version :: rest) data /\
            n = strip package /\
            v = lstrip (str "= ") (strip version)) /\
  (forall header,
      load_infected_packages
        (CsvRows [header; [str "evil-pkg"; str "1.0.0"; str "malware"];
                  [str "only-one-column"]; []])
      = Run [] (Return {[ (str "evil-pkg", str "1.0.0") ]})) /\
  advisory_entry (split_on 44 (str "evil-pkg,1.0.0,malware"))
  = Some (str "evil-pkg", str "1.0.0") /\
  advisory_entry [str " evil-pkg "; str " = 1.0.0 "]
  = Some (str "evil-pkg", str "1.0.0").
Proof.
  split; [|split; [|split]].
  - intros header data. eexists. split; [reflexivity|].
    intros n v. rewrite elem_of_add_rows. split.
    + intros [Hin|(row & Hin & He)]; [set_solver|].
      apply advisory_entry_Some in He
        as (package & version & rest & -> & [= -> ->]).
      exists package, version, rest. auto.
    + intros (package & version & rest & Hin & -> & ->).
      right. exists (package :: version :: rest). split; [exact Hin|].
      reflexivity.
  - intros header. vm_compute. reflexivity.
  - reflexivity.
  - reflexivity.
Qed.

(** ** C8: a missing or unreadable lock file *)

Lemma main_without_lock (w : world) (pre lm ll : list msg)
    (M : pydict key json) :
  prepare_csv w = Run pre (Return tt) ->
  load_package_json (manifest w) = Run lm (Return M) ->
  load_package_lock (lock w) = Run ll (Return []) ->
  main w
  = Run (pre ++ lm ++ [MsgManifestCount (length M)] ++ ll ++ [MsgNoLock]
         ++ printed (scan_and_report w M))
        (outcome (scan_and_report w M)).
Proof.
  intros Hp Hm Hl. unfold main.
  rewrite Hp. cbn [mbind run_bind printed outcome].
  rewrite Hm. cbn [mbind run_bind printed outcome print].
  rewrite Hl. cbn [mbind run_bind printed outcome print mret run_ret].
  rewrite app_nil_r. reflexivity.
Qed.

(** C8.  An absent lock file gives the empty mapping and no message.  A
    lock file that cannot be read or parsed, or whose content makes the
    extraction raise, gives a warning and the empty mapping; the run then
    goes on and scans the manifest-derived set alone. *)
Theorem lock_failure_recoverable (w : world) (pre lm : list msg)
    (M : pydict key json) (e : exn) :
  prepare_csv w = Run pre (Return tt) ->
  load_package_json (manifest w) = Run lm (Return M) ->
  lock w = Unreadable e \/ (exists j, lock w = Parsed j /\ parse_lock j = Raise e) ->
  load_package_lock Absent = Run [] (Return []) /\
  load_package_lock (lock w)
  = Run [MsgLockFound; MsgLockWarning e] (Return []) /\
  main w
  = Run (pre ++ lm
         ++ [MsgManifestCount (length M); MsgLockFound; MsgLockWarning e;
             MsgNoLock]
         ++ printed (scan_and_report w M))
        (outcome (scan_and_report w M)).
Proof.
  intros Hp Hm Hlock.
  assert (Hl : load_package_lock (lock w)
               = Run [MsgLockFound; MsgLockWarning e] (Return [])).
  { destruct Hlock as [->|(j & -> & Hj)]; cbn; [reflexivity|].
    rewrite Hj. reflexivity. }
  split; [reflexivity|]. split; [exact Hl|].
  rewrite (main_without_lock w pre lm _ M Hp Hm Hl). reflexivity.
Qed.

(** The same run with no lock file at all. *)
Lemma main_lock_absent (w : world) (pre lm : list msg) (M : pydict key json) :
  prepare_csv w = Run pre (Return tt) ->
  load_package_json (manifest w) = Run lm (Return M) ->
  lock w = Absent ->
  main w
  = Run (pre ++ lm ++ [MsgManifestCount (length M); MsgNoLock]
         ++ printed (scan_and_report w M))
        (outcome (scan_and_report w M)).
Proof.
  intros Hp Hm Hlock.
  rewrite (main_without_lock w pre lm [] M Hp Hm); [reflexivity|].
  rewrite Hlock. reflexivity.
Qed.

Lemma lock_failure_recoverable_witness :
  prepare_csv world_unreadable_lock = Run [MsgTestMode] (Return tt) /\
  load_package_json (manifest world_unreadable_lock)
  = Run [MsgManifestFound] (Return (of_strings [(str "react", str "19.1.1")])) /\
  main world_unreadable_lock
  = Run [MsgTestMode; MsgManifestFound; MsgManifestCount 1; MsgLockFound;
         MsgLockWarning ValueError; MsgNoLock; MsgAdvisoryCount 1;
         MsgInfectedFound (KStr (str "react")) (JStr (str "19.1.1"));
         MsgInfectionCount 1;
         MsgInfectedItem (KStr (str "react")) (JStr (str "19.1.1"))]
        (SysExit 1) /\
  main world_unreadable_lock
  = Run ([MsgTestMode] ++ [MsgManifestFound]
         ++ [MsgManifestCount 1; MsgLockFound; MsgLockWarning ValueError;
             MsgNoLock]
         ++ printed (scan_and_report world_unreadable_lock
                       (of_strings [(str "react", str "19.1.1")])))
        (outcome (scan_and_report world_unreadable_lock
                    (of_strings [(str "react", str "19.1.1")]))).
Proof.
  split; [reflexivity|]. split; [reflexivity|].
  split; [vm_compute; reflexivity|].
  exact (proj2 (proj2 (lock_failure_recoverable world_unreadable_lock
                         [MsgTestMode] [MsgManifestFound]
                         (of_strings [(str "react", str "19.1.1")]) ValueError
                         eq_refl eq_refl (or_introl eq_refl)))).
Defined.

(** ** C6: the nested-tree shape *)

Lemma json_ind (P : json -> Prop)
    (Hnull : P JNull) (Hbool : forall b, P (JBool b))
    (Hint : forall z, P (JInt z)) (Hstr : forall s, P (JStr s))
    (Harr : forall l, Forall P l -> P (JArr l))
    (Hobj : forall d, Forall (fun kv => P kv.2) d -> P (JObj d)) :
  forall j, P j.
Proof.
  fix IH 1. intros [| b | z | s | l | d].
  - exact Hnull.
  - apply Hbool.
  - apply Hint.
  - apply Hstr.
  - apply Harr. induction l as [|a l IHl]; constructor; [apply IH | exact IHl].
  - apply Hobj.
    induction d as [|[k v] d IHd]; constructor; [apply IH | exact IHd].
Qed.

(** Induction on a dependency tree: to prove [P] of a tree, [P] may be
    used for every field of every entry of the tree. *)
Lemma json_tree_ind (P : json -> Prop) :
  (forall items,
      (forall name d k sub,
          In (name, JObj d) items -> In (k, sub) d -> P sub) ->
      P (JObj items)) ->
  P JNull -> (forall b, P (JBool b)) -> (forall z, P (JInt z)) ->
  (forall s, P (JStr s)) -> (forall l, P (JArr l)) ->
  forall j, P j.
Proof.
  intros Hobj Hnull Hbool Hint Hstr Harr.
  assert (H : forall j,
             P j /\ match j with
                    | JObj d => forall k sub, In (k, sub) d -> P sub
                    | _ => True
                    end).
  { induction j as [| | | | l _ | d IHd] using json_ind; try (split; auto; fail).
    rewrite Forall_forall in IHd.
    assert (Hd : forall k sub, In (k, sub) d -> P sub).
    { intros k sub Hin. apply (IHd (k, sub)). apply list_elem_of_In. exact Hin. }
    split; [|exact Hd].
    apply Hobj. intros name d' k sub Hin Hin'.
    destruct (IHd (name, JObj d')) as [_ Hsub];
      [apply list_elem_of_In; exact Hin|].
    exact (Hsub k sub Hin'). }
  intros j. apply H.
Qed.

Lemma extract_deps_unfold (items : list (pystr * json))
    (all_packages : pydict pystr json) :
  extract_deps (JObj items) all_packages
  = for_each extract_entry items all_packages.
Proof.
  cbn [extract_deps]. revert all_packages.
  induction items as [|[name info] items IH]; intros acc; [reflexivity|].
  cbn [for_each].
  destruct info as [| | | | |d]; try exact (IH acc).
  change (extract_entry acc (name, JObj d))
    with (let acc1 := match dict_get (str "version") d with
                      | Some v => dict_set name v acc
                      | None => acc
                      end in
          match dict_get (str "dependencies") d with
          | Some sub => extract_deps sub acc1
          | None => Ok acc1
          end).
  set (acc1 := match dict_get (str "version") d with
               | Some v => dict_set name v acc
               | None => acc
               end).
  clearbody acc1. cbv zeta.
  match goal with
  | |- (?lookup d ≫= _) = _ =>
      assert (Hl : lookup d
                   = match dict_get (str "dependencies") d with
                     | Some sub => extract_deps sub acc1
                     | None => Ok acc1
                     end)
  end.
  { clear IH. induction d as [|[k sub] d IHd]; [reflexivity|].
    cbn [dict_get]. destruct (decide (str "dependencies" = k)); [reflexivity|].
    exact IHd. }
  rewrite Hl.
  destruct (match dict_get (str "dependencies") d with
            | Some sub => extract_deps sub acc1
            | None => Ok acc1
            end) as [acc2|e]; [|reflexivity].
  cbn [mbind res_bind]. apply IH.
Qed.

Lemma visits_unfold (items : list (pystr * json)) :
  visits (JObj items) = flat_map visit_entry items.
Proof.
  cbn [visits].
  induction items as [|[name info] items IH]; [reflexivity|].
  cbn [flat_map].
  destruct info as [| | | | |d]; try exact IH.
  change (visit_entry (name, JObj d))
    with (match dict_get (str "version") d with
          | Some v => [(name, v)]
          | None => []
          end
          ++ match dict_get (str "dependencies") d with
             | Some sub => visits sub
             | None => []
             end).
  rewrite <- app_assoc. f_equal. f_equal; [|exact IH].
  clear IH. induction d as [|[k sub] d IHd]; [reflexivity|].
  cbn [dict_get]. destruct (decide (str "dependencies" = k)); [reflexivity|].
  exact IHd.
Qed.

Lemma dict_update_app {K V : Type} `{EqDecision K} (d l1 l2 : list (K * V)) :
  dict_update d (l1 ++ l2) = dict_update (dict_update d l1) l2.
Proof. unfold dict_update. apply foldl_app. Qed.

(** On a tree of the right shape the traversal stores the visits in their
    order. *)
Lemma extract_deps_visits (deps : json) :
  tree_shape deps ->
  forall acc, extract_deps deps acc = Ok (dict_update acc (visits deps)).
Proof.
  induction deps as [items IH| | | | |] using json_tree_ind;
    try (intros Hs; inversion Hs; fail).
  intros Hs acc. inversion Hs as [items' Hsub]; subst items'.
  rewrite extract_deps_unfold, visits_unfold.
  assert (Hentries : forall entry, In entry items ->
            forall acc, extract_entry acc entry
                        = Ok (dict_update acc (visit_entry entry))).
  { intros [name info] Hin acc'. unfold extract_entry, visit_entry.
    cbn [fst snd]. destruct info as [| | | | |d]; try reflexivity.
    destruct (dict_get (str "dependencies") d) as [sub|] eqn:Hd.
    - rewrite (IH name d (str "dependencies") sub Hin (dict_get_In _ _ _ Hd)).
      + rewrite dict_update_app.
        destruct (dict_get (str "version") d); reflexivity.
      + exact (Hsub name d sub Hin Hd).
    - rewrite app_nil_r. destruct (dict_get (str "version") d); reflexivity. }
  clear IH Hs Hsub. revert acc.
  induction items as [|entry items IHi]; intros acc; [reflexivity|].
  cbn [for_each flat_map]. rewrite Hentries by (left; reflexivity).
  cbn [mbind res_bind]. rewrite dict_update_app.
  apply IHi. intros e He. apply Hentries. right. exact He.
Qed.

Lemma dict_get_update_last {K V : Type} `{EqDecision K} (k : K)
    (items d : list (K * V)) :
  dict_get k (dict_update d items)
  = foldl (fun found kv => if decide (k = kv.1) then Some kv.2 else found)
          (dict_get k d) items.
Proof.
  unfold dict_update. revert d.
  induction items as [|[k0 v0] items IH]; intros d; [reflexivity|].
  cbn [foldl fst snd]. rewrite IH, dict_get_set. reflexivity.
Qed.

Lemma foldl_last_default {A : Type} (name : pystr) (l : list (pystr * A))
    (found : option A) :
  foldl (fun found nv => if decide (name = nv.1) then Some nv.2 else found)
        found l
  = match foldl (fun found nv => if decide (name = nv.1) then Some nv.2
                                 else found) None l with
    | Some v => Some v
    | None => found
    end.
Proof.
  revert found. induction l as [|[n v] l IH]; intros found; [reflexivity|].
  cbn [foldl fst snd]. destruct (decide (name = n)); [|apply IH].
  rewrite (IH (Some v)). destruct (foldl _ None l); reflexivity.
Qed.






Example extract_deps_same_name :
  extract_deps tree_same_name []
  = Ok [(str "a", JStr (str "2.0.0")); (str "b", JStr (str "3.0.0"))].
Proof. reflexivity. Qed.

Example extract_deps_not_a_tree :
  extract_deps (JObj [(str "a", JObj [(str "dependencies", JArr [])])]) []
  = Raise AttributeError.
Proof. reflexivity. Qed.

(** ** C10 and C3: names recorded for install paths *)

Lemma node_modules_chars :
  node_modules = [110; 111; 100; 101; 95; 109; 111; 100; 117; 108; 101; 115; 47].
Proof. reflexivity. Qed.

Lemma starts_with_app (p q r : pystr) :
  (length p <= length q)%nat -> starts_with p (q ++ r) = starts_with p q.
Proof.
  revert q. induction p as [|a p IH]; intros q Hlen; [destruct q; reflexivity|].
  destruct q as [|b q]; cbn in Hlen; [lia|].
  cbn. rewrite IH by lia. reflexivity.
Qed.








(** C3, on the document the specification names.  Both paths are given
    the name [@scope/pkg]: the entry of [sub] overwrites the version of
    [@scope/pkg], and no entry [sub] is recorded. *)
Theorem scoped_nested_conflated :
  package_name_of (str "node_modules/@scope/pkg") = str "@scope/pkg" /\
  package_name_of (str "node_modules/@scope/pkg/node_modules/sub")
  = str "@scope/pkg" /\
  parse_lock lock_scoped_nested = Ok [(str "@scope/pkg", JStr (str "2.0.0"))] /\
  load_package_lock (Parsed lock_scoped_nested)
  = Run [MsgLockFound] (Return [(str "@scope/pkg", JStr (str "2.0.0"))]).
Proof. repeat split. Qed.

(** ** The lock-derived mapping is a dict *)

Lemma for_each_invariant {A S : Type} (P : S -> Prop)
    (body : S -> A -> res S) (l : list A) :
  (forall s a s', In a l -> body s a = Ok s' -> P s -> P s') ->
  forall s s', for_each body l s = Ok s' -> P s -> P s'.
Proof.
  induction l as [|a l IH]; intros Hbody s s'.
  - cbn. intros [= <-] Hs. exact Hs.
  - cbn [for_each]. destruct (body s a) as [s1|e] eqn:Hb; [|discriminate].
    cbn [mbind res_bind]. intros Hrest Hs.
    apply (IH (fun s0 a0 s0' Hin => Hbody s0 a0 s0' (or_intror Hin)) s1 s' Hrest).
    apply (Hbody s a s1 (or_introl eq_refl) Hb Hs).
Qed.

Lemma record_path_NoDup (acc acc' : pydict pystr json) (entry : pystr * json) :
  record_path acc entry = Ok acc' -> NoDup acc.*1 -> NoDup acc'.*1.
Proof.
  unfold record_path. destruct (bool_decide (entry.1 = [])).
  - intros [= <-] H. exact H.
  - destruct (py_in (str "version") entry.2) as [[|]|e]; cbn [mbind res_bind];
      try discriminate.
    + destruct (py_getitem entry.2 (str "version")) as [v|e];
        cbn [mbind res_bind]; [|discriminate].
      intros [= <-] H. apply dict_set_NoDup. exact H.
    + intros [= <-] H. exact H.
Qed.

Lemma extract_deps_NoDup (deps : json) :
  forall acc acc',
    extract_deps deps acc = Ok acc' -> NoDup acc.*1 -> NoDup acc'.*1.
Proof.
  induction deps as [items IH| | | | |] using json_tree_ind;
    [|intros ? ? [=]..].
  intros acc acc'. rewrite extract_deps_unfold.
  apply (for_each_invariant (fun s => NoDup s.*1)).
  intros s [name info] s' Hin.
  unfold extract_entry. cbn [fst snd].
  destruct info as [| | | | |d]; try (intros [= <-] H; exact H).
  assert (Hacc1 : NoDup s.*1 ->
                  NoDup (match dict_get (str "version") d with
                         | Some v => dict_set name v s
                         | None => s
                         end).*1).
  { intros H. destruct (dict_get (str "version") d);
      [apply dict_set_NoDup|]; exact H. }
  destruct (dict_get (str "dependencies") d) as [sub|] eqn:Hd.
  - intros Hsub H.
    apply (IH name d _ sub Hin (dict_get_In _ _ _ Hd) _ _ Hsub). auto.
  - intros [= <-]. exact Hacc1.
Qed.

Lemma parse_lock_NoDup (lock : json) (L : pydict pystr json) :
  parse_lock lock = Ok L -> NoDup L.*1.
Proof.
  unfold parse_lock.
  destruct (py_in (str "packages") lock) as [has|e]; cbn [mbind res_bind];
    [|discriminate].
  assert (Hpk : forall all_packages,
             (if has
              then packages ← py_get lock (str "packages") (JObj []);
                   entries ← py_items packages;
                   for_each record_path entries []
              else Ok []) = Ok all_packages ->
             NoDup all_packages.*1).
  { intros all_packages. destruct has.
    - destruct (py_get lock (str "packages") (JObj [])) as [pk|e];
        cbn [mbind res_bind]; [|discriminate].
      destruct (py_items pk) as [entries|e]; cbn [mbind res_bind];
        [|discriminate].
      intros Hfor.
      apply (for_each_invariant (fun s => NoDup s.*1) record_path entries
               (fun s a s' _ Hb Hs => record_path_NoDup s s' a Hb Hs)
               _ _ Hfor).
      apply NoDup_nil_2.
    - intros [= <-]. apply NoDup_nil_2. }
  destruct (if has then _ else _) as [all_packages|e]; cbn [mbind res_bind];
    [|discriminate].
  specialize (Hpk all_packages eq_refl).
  destruct (py_in (str "dependencies") lock) as [[|]|e]; cbn [mbind res_bind];
    try discriminate.
  - destruct (py_getitem lock (str "dependencies")) as [deps|e];
      cbn [mbind res_bind]; [|discriminate].
    intros Hx. exact (extract_deps_NoDup deps _ _ Hx Hpk).
  - intros [= <-]. exact Hpk.
Qed.

Lemma load_package_lock_NoDup (f : file) :
  exists ll L,
    load_package_lock f = Run ll (Return L) /\ NoDup L.*1.
Proof.
  destruct f as [|e|lock]; cbn.
  - exists [], []. split; [reflexivity | apply NoDup_nil_2].
  - eexists _, []. split; [reflexivity | apply NoDup_nil_2].
  - destruct (parse_lock lock) as [L|e] eqn:Hl.
    + eexists _, L. split; [reflexivity|]. exact (parse_lock_NoDup _ _ Hl).
    + eexists _, []. split; [reflexivity | apply NoDup_nil_2].
Qed.

(** Whatever the lock file, [main] scans the manifest-derived set followed
    by the lock-only entries. *)
Lemma main_scans_merged (w : world) (pre lm : list msg) (M : pydict key json) :
  prepare_csv w = Run pre (Return tt) ->
  load_package_json (manifest w) = Run lm (Return M) ->
  exists ll L mid,
    load_package_lock (lock w) = Run ll (Return L) /\
    NoDup L.*1 /\
    main w
    = Run (pre ++ lm ++ mid
           ++ printed (scan_and_report w
                         (M ++ string_entries
                                 (filter (fun nv => KStr nv.1 ∉ M.*1) L))))
          (outcome (scan_and_report w
                      (M ++ string_entries
                              (filter (fun nv => KStr nv.1 ∉ M.*1) L)))).
Proof.
  intros Hp Hm.
  destruct (load_package_lock_NoDup (lock w)) as (ll & L & Hl & Hnd).
  exists ll, L. unfold main.
  rewrite Hp. cbn [mbind run_bind printed outcome].
  rewrite Hm. cbn [mbind run_bind printed outcome print].
  rewrite Hl. cbn [mbind run_bind printed outcome print mret run_ret].
  destruct L as [|entry L].
  - exists ([MsgManifestCount (length M)] ++ ll ++ [MsgNoLock]).
    split; [reflexivity|]. split; [exact Hnd|].
    rewrite filter_nil. cbn [string_entries map].
    cbn [mbind run_bind printed outcome].
    rewrite !app_nil_r, <- !app_assoc. reflexivity.
  - exists ([MsgManifestCount (length M)] ++ ll
            ++ [MsgLockCount (length (entry :: L));
                MsgTotalUnique (length (merge_lock M (entry :: L)))]).
    split; [reflexivity|]. split; [exact Hnd|].
    cbn [mbind run_bind printed outcome].
    rewrite <- (merge_lock_app M (entry :: L) Hnd).
    rewrite !app_nil_r, <- !app_assoc. reflexivity.
Qed.

(** ** Further facts and the scenarios of the specification *)

Lemma take_until_space_first (s : pystr) (c : char) :
  head s = Some c -> is_space c = false ->
  exists ts, split_ws s = take_until_space s :: ts.
Proof.
  revert c. induction s as [|a s IH]; intros c; [discriminate|].
  intros [= ->] Hc. cbn [split_ws take_until_space]. rewrite Hc.
  destruct s as [|c' s]; [eexists; reflexivity|].
  destruct (is_space c') eqn:Hc'.
  - cbn [take_until_space]. rewrite Hc'. eexists; reflexivity.
  - destruct (IH c' eq_refl Hc') as [ts Hts]. rewrite Hts.
    eexists; reflexivity.
Qed.

Lemma mem_char_with_space (c : char) :
  mem_char c (str "^~>=< ") = mem_char c comparators || (c =? 32).
Proof.
  assert (E : comparators = [94; 126; 62; 61; 60]) by reflexivity.
  assert (E' : str "^~>=< " = [94; 126; 62; 61; 60; 32]) by reflexivity.
  unfold mem_char. rewrite E, E'. cbn [existsb].
  destruct (c =? 94), (c =? 126), (c =? 62), (c =? 61), (c =? 60), (c =? 32);
    reflexivity.
Qed.

(** Where the stated rule and line 77 agree: when the comparator run is
    followed at once by a character that is not whitespace. *)
Lemma clean_version_agrees (v : pystr) (c : char) :
  head (lstrip comparators v) = Some c ->
  is_space c = false ->
  clean_version v = Ok (spec_normalize v).
Proof.
  intros Hhd Hc. unfold clean_version, spec_normalize.
  destruct (take_until_space_first _ c Hhd Hc) as [ts Hts]. rewrite Hts.
  cbn [first_item]. f_equal. f_equal.
  unfold lstrip in *.
  destruct (lstrip_by_split (fun c => mem_char c comparators) v)
    as (pre & Hv & Hpre & Hnot).
  rewrite Hv at 2. symmetry. apply lstrip_by_app.
  - eapply Forall_impl; [exact Hpre|].
    intros a Ha. rewrite mem_char_with_space. cbv beta in Ha.
    rewrite Ha. reflexivity.
  - intros a Ha. rewrite Hhd in Ha. injection Ha as <-.
    rewrite mem_char_with_space, (Hnot c Hhd). cbn [orb].
    apply N.eqb_neq. intros ->. discriminate Hc.
Qed.

(** The matcher on a dictionary of strings, the type it is annotated
    with. *)
Lemma scan_packages_strings (d : list (pystr * pystr))
    (infected : gset (pystr * pystr)) :
  scan_packages (of_strings d) infected
  = Ok (of_strings (filter (fun nv => nv ∈ infected) d)).
Proof.
  unfold scan_packages. rewrite scan_loop.
  - cbn [app]. f_equal. unfold of_strings.
    induction d as [|[n v] d IH]; [reflexivity|].
    cbn [map]. rewrite !filter_cons. cbn [is_match fst snd].
    destruct (decide ((n, v) ∈ infected)) as [Hin|Hin].
    + rewrite bool_decide_eq_true_2 by exact Hin.
      destruct (decide (Is_true true)) as [_|Hn]; [|destruct Hn; exact I].
      cbn [map fst snd]. rewrite IH. reflexivity.
    + rewrite bool_decide_eq_false_2 by exact Hin.
      destruct (decide (Is_true false)) as [[]|_]. exact IH.
  - unfold of_strings. apply Forall_forall.
    intros nv (x & -> & _)%list_elem_of_fmap. exact I.
Qed.

(** Section 8: the manifest declares react ^19.1.1, there is no lock file
    and the advisory lists react 19.1.1: one infection, exit status 1. *)
Example scenario_react_infected :
  main (World true true true
          (CsvRows [[str "package"; str "version"];
                    [str "react"; str "19.1.1"]])
          (Parsed (JObj [(str "dependencies",
                          JObj [(str "react", JStr (str "^19.1.1"))])]))
          Absent)
  = Run [MsgTestMode; MsgManifestFound; MsgManifestCount 1; MsgNoLock;
         MsgAdvisoryCount 1;
         MsgInfectedFound (KStr (str "react")) (JStr (str "19.1.1"));
         MsgInfectionCount 1;
         MsgInfectedItem (KStr (str "react")) (JStr (str "19.1.1"))]
        (SysExit 1).
Proof. vm_compute. reflexivity. Qed.

(** Section 8: no advisory row matches: no infection, the run ends
    normally (exit status 0). *)
Example scenario_left_pad_clean :
  main (World false false true
          (CsvRows [[str "package"; str "version"];
                    [str "evil-pkg"; str "1.0.0"]])
          (Parsed (JObj [(str "dependencies",
                          JObj [(str "left-pad", JStr (str "1.0.0"))])]))
          Absent)
  = Run [MsgDownloading; MsgDownloaded; MsgManifestFound; MsgManifestCount 1;
         MsgNoLock; MsgAdvisoryCount 1; MsgNoInfection]
        (Return tt).
Proof. vm_compute. reflexivity. Qed.

(** Section 8: without a manifest the run stops before any scan. *)
Example scenario_manifest_missing (c : csv_file) (l : file) :
  main (World true true true c Absent l)
  = Run [MsgTestMode; MsgManifestMissing] (SysExit 1).
Proof. reflexivity. Qed.

(** A lock entry whose version is a list makes the matcher raise, and
    nothing catches it. *)
Example scenario_unhashable_version :
  outcome
    (main (World true true true
             (CsvRows [[str "package"; str "version"]])
             (Parsed (JObj []))
             (Parsed (JObj [(str "dependencies",
                             JObj [(str "a",
                                    JObj [(str "version", JArr [])])])]))))
  = Uncaught TypeError.
Proof. vm_compute. reflexivity. Qed.

Lemma starts_with_short (p s : pystr) :
  (length s < length p)%nat -> starts_with p s = false.
Proof.
  revert s. induction p as [|a p IH]; intros s Hlen; [cbn in Hlen; lia|].
  destruct s as [|b s]; [reflexivity|]. cbn in Hlen. cbn.
  rewrite IH by lia. apply andb_false_r.
Qed.

Lemma starts_with_prefix (p s : pystr) :
  starts_with p s = true -> exists rest, s = p ++ rest.
Proof.
  revert s. induction p as [|a p IH]; intros s; [exists s; reflexivity|].
  destruct s as [|b s]; [discriminate|]. cbn.
  intros [Hab Hps]%andb_prop. apply N.eqb_eq in Hab as ->.
  destruct (IH s Hps) as [rest ->]. exists rest. reflexivity.
Qed.

Lemma first_occurrence (s : pystr) :
  contains node_modules s = true ->
  exists p rest,
    s = p ++ node_modules ++ rest /\ contains node_modules p = false.
Proof.
  induction s as [|c s IH]; [discriminate|].
  cbn [contains]. destruct (starts_with node_modules (c :: s)) eqn:Hs.
  - intros _. destruct (starts_with_prefix _ _ Hs) as [rest Hrest].
    exists [], rest. split; [exact Hrest | reflexivity].
  - cbn [orb]. intros Hc. destruct (IH Hc) as (p & rest & -> & Hp).
    exists (c :: p), rest. split; [reflexivity|].
    cbn [contains]. rewrite Hp, orb_false_r.
    destruct (le_lt_dec (length node_modules) (length (c :: p))) as [Hl|Hl].
    + rewrite <- (starts_with_app _ _ (node_modules ++ rest)) by exact Hl.
      exact Hs.
    + apply starts_with_short. exact Hl.
Qed.

(** Every path is made of pieces free of [node_modules/] joined by it:
    such pieces exist for every path. *)
Lemma path_decomposition (package_path : pystr) :
  exists pieces,
    package_path = join node_modules pieces /\
    Forall (fun p => contains node_modules p = false) pieces.
Proof.
  assert (H : forall n s, (length s <= n)%nat ->
            exists pieces,
              pieces <> [] /\ s = join node_modules pieces /\
              Forall (fun p => contains node_modules p = false) pieces).
  { induction n as [|n IH]; intros s Hlen.
    - destruct s; [|cbn in Hlen; lia].
      exists [[]]. repeat split; [discriminate | repeat constructor].
    - destruct (contains node_modules s) eqn:Hc.
      + destruct (first_occurrence s Hc) as (p & rest & -> & Hp).
        destruct (IH rest) as (ps & Hne & -> & Hps).
        { rewrite !length_app, node_modules_chars in Hlen.
          cbn [length] in Hlen. lia. }
        exists (p :: ps). repeat split; [discriminate| |constructor; assumption].
        destruct ps; [congruence | reflexivity].
      + exists [s]. repeat split; [discriminate | repeat constructor; exact Hc]. }
  destruct (H (length package_path) package_path (le_n _))
    as (pieces & _ & Heq & Hp).
  exists pieces. split; assumption.
Qed.

(** The traversal returns on the trees of the right shape only. *)
Lemma for_each_Ok_body {A S : Type} (body : S -> A -> res S) (l : list A) :
  forall s s', for_each body l s = Ok s' ->
  forall a, In a l -> exists s1 s2, body s1 a = Ok s2.
Proof.
  induction l as [|x l IH]; intros s s' Hfor a; [intros []|].
  cbn [for_each] in Hfor. destruct (body s x) as [s1|e] eqn:Hb; [|discriminate].
  cbn [mbind res_bind] in Hfor. intros [->|Hin].
  - exists s, s1. exact Hb.
  - exact (IH _ _ Hfor a Hin).
Qed.

Lemma extract_deps_Ok_shape (deps : json) :
  forall acc result, extract_deps deps acc = Ok result -> tree_shape deps.
Proof.
  induction deps as [items IH| | | | |] using json_tree_ind;
    [|intros ? ? [=]..].
  intros acc result. rewrite extract_deps_unfold. intros Hfor.
  constructor. intros name d sub Hin Hd.
  destruct (for_each_Ok_body _ _ _ _ Hfor _ Hin) as (s1 & s2 & Hb).
  unfold extract_entry in Hb. cbn [fst snd] in Hb. rewrite Hd in Hb.
  exact (IH name d _ sub Hin (dict_get_In _ _ _ Hd) _ _ Hb).
Qed.

(** An advisory file without a header row ends the run. *)
Example load_infected_packages_empty :
  load_infected_packages (CsvRows [])
  = Run [MsgCsvFailed StopIteration] (SysExit 1).
Proof. reflexivity. Qed.

(** Outside the documented shape: a category that is a list of pairs is
    accepted by [dict.update], a category that is [null] is not, and a
    version that is not a string has no [lstrip]. *)
Example parse_manifest_list_category :
  parse_manifest
    (JObj [(str "dependencies", JArr [JArr [JStr (str "a"); JStr (str "~1.0.0")]])])
  = Ok [(KStr (str "a"), JStr (str "1.0.0"))].
Proof. reflexivity. Qed.

Example parse_manifest_null_category :
  parse_manifest (JObj [(str "dependencies", JNull)]) = Raise TypeError.
Proof. reflexivity. Qed.

Example parse_manifest_number_version :
  parse_manifest (JObj [(str "dependencies", JObj [(str "a", JInt 1)])])
  = Raise AttributeError.
Proof. reflexivity. Qed.

(** * Further properties of the code *)

(** ** Version normalisation *)

Lemma lstrip_by_run (p : char -> bool) (pre v : pystr) :
  Forall (fun c => p c = true) pre ->
  lstrip_by p (pre ++ v) = lstrip_by p v.
Proof.
  induction 1 as [|c pre Hc _ IH]; [reflexivity|].
  cbn [app lstrip_by]. rewrite Hc. exact IH.
Qed.

Lemma clean_version_concrete (t : pystr) :
  concrete t -> clean_version t = Ok t.
Proof.
  intros (Hne & Hns & Hhd). apply clean_version_token.
  exists [], [], []. cbn [app]. rewrite app_nil_r.
  repeat split; auto; try constructor. discriminate.
Qed.

(** X1.  The versions that line 77 leaves unchanged are exactly the
    concrete tokens: non-empty, free of whitespace, not starting with one
    of [^ ~ > = <]. *)
Theorem clean_version_fixed_points (t : pystr) :
  clean_version t = Ok t <->
  t <> [] /\
  Forall (fun c => is_space c = false) t /\
  (forall c, head t = Some c -> mem_char c comparators = false).
Proof.
  split; [|apply clean_version_concrete].
  intros (pre & ws & tail & Heq & _ & Hhd & _ & Hne & Hns & _)%clean_version_token.
  assert (Hlen : length t = (length pre + (length ws + (length t + length tail)))%nat)
    by (rewrite Heq at 1; rewrite !length_app; reflexivity).
  assert (ws = []) as -> by (destruct ws; [reflexivity | cbn in Hlen; lia]).
  repeat split; assumption.
Qed.

(** X2.  Leading comparator characters do not change the result: any run
    of [^ ~ > = <] put before a version is ignored, so a concrete token
    behind any such run normalises to itself. *)
Theorem clean_version_prefix_ignored (pre v : pystr) :
  Forall (fun c => mem_char c comparators = true) pre ->
  clean_version (pre ++ v) = clean_version v /\
  (concrete v -> clean_version (pre ++ v) = Ok v).
Proof.
  intros Hpre.
  assert (H : clean_version (pre ++ v) = clean_version v).
  { unfold clean_version, lstrip. rewrite lstrip_by_run by exact Hpre.
    reflexivity. }
  split; [exact H|]. intros Hv. rewrite H. apply clean_version_concrete.
  exact Hv.
Qed.

Lemma clean_version_prefix_ignored_witness :
  Forall (fun c => mem_char c comparators = true) (str ">=") /\
  clean_version (str ">=" ++ str "1.x") = clean_version (str "1.x") /\
  clean_version (str "1.x") = Ok (str "1.x").
Proof.
  assert (Hpre : Forall (fun c => mem_char c comparators = true) (str ">="))
    by (repeat constructor).
  split; [exact Hpre|]. split; [|reflexivity].
  exact (proj1 (clean_version_prefix_ignored (str ">=") (str "1.x") Hpre)).
Defined.

(** ** The manifest parser on any document *)

Lemma dict_set_In {K V : Type} `{EqDecision K} (k k' : K) (v v' : V)
    (d : list (K * V)) :
  In (k', v') (dict_set k v d) -> In (k', v') d \/ v' = v.
Proof.
  induction d as [|[k0 v0] d IH]; cbn [dict_set].
  - intros [[= _ <-]|[]]. right. reflexivity.
  - destruct (decide (k = k0)) as [->|Hne].
    + intros [[= _ <-]|Hin]; [right; reflexivity | left; right; exact Hin].
    + intros [Heq|Hin]; [left; left; exact Heq|].
      destruct (IH Hin) as [H|H]; [left; right; exact H | right; exact H].
Qed.

Lemma clean_value_token (j : json) (t : pystr) :
  clean_value j = Ok t ->
  t <> [] /\ Forall (fun c => is_space c = false) t.
Proof.
  destruct j; cbn; try discriminate.
  intros (pre & ws & tail & _ & _ & _ & _ & Hne & Hns & _)%clean_version_token.
  split; assumption.
Qed.

Lemma clean_deps_invariant (all_deps cleaned : pydict key json) :
  clean_deps all_deps = Ok cleaned ->
  NoDup cleaned.*1 /\ Forall (fun nv => stored_version nv.2) cleaned.
Proof.
  unfold clean_deps. intros Hfor.
  refine (for_each_invariant
            (fun s => NoDup s.*1 /\ Forall (fun nv => stored_version nv.2) s)
            _ _ _ _ _ Hfor _);
    [|split; [apply NoDup_nil_2 | constructor]].
  intros s [k j] s' _. cbn [fst snd].
  destruct (clean_value j) as [t|e] eqn:Hc; cbn [mbind res_bind]; [|discriminate].
  intros [= <-] [Hnd Hall]. split; [apply dict_set_NoDup; exact Hnd|].
  apply Forall_forall. intros [k' v'] Hin%list_elem_of_In.
  apply dict_set_In in Hin as [Hin| ->].
  - rewrite Forall_forall in Hall. apply (Hall (k', v')).
    apply list_elem_of_In. exact Hin.
  - exists t. split; [reflexivity|]. exact (clean_value_token _ _ Hc).
Qed.

Lemma stored_version_hashable (v : json) : stored_version v -> hashable v.
Proof. intros (t & -> & _). exact I. Qed.

(** X3.  Whatever the document, a manifest mapping that is returned has
    pairwise distinct names, and each of its versions is a string that is
    not empty and holds no whitespace (so it can be hashed). *)
Theorem parse_manifest_output (pkg : json) (cleaned : pydict key json) :
  parse_manifest pkg = Ok cleaned ->
  NoDup cleaned.*1 /\
  Forall (fun nv => exists t, nv.2 = JStr t /\ t <> [] /\
                              Forall (fun c => is_space c = false) t) cleaned /\
  Forall (fun nv => hashable nv.2) cleaned.
Proof.
  unfold parse_manifest.
  destruct (collect_deps pkg) as [all_deps|e]; cbn [mbind res_bind];
    [|discriminate].
  intros [Hnd Hall]%clean_deps_invariant. split; [exact Hnd|].
  split; [exact Hall|].
  eapply Forall_impl; [exact Hall|]. intros nv. apply stored_version_hashable.
Qed.

Lemma parse_manifest_output_witness :
  parse_manifest (JObj manifest_two_categories)
  = Ok [(KStr (str "a"), JStr (str "2.0.0"))] /\
  NoDup [(KStr (str "a"), JStr (str "2.0.0"))].*1.
Proof.
  split; [reflexivity|].
  exact (proj1 (parse_manifest_output (JObj manifest_two_categories)
                  [(KStr (str "a"), JStr (str "2.0.0"))] eq_refl)).
Defined.

(** X4.  The manifest is accepted exactly when its categories can be
    collected and every collected version is a string holding a token;
    in every other case the parse failure is printed and the run exits
    with status 1. *)
Theorem load_package_json_accepts (pkg : json) :
  ((exists cleaned,
       load_package_json (Parsed pkg) = Run [MsgManifestFound] (Return cleaned))
   <->
   (exists all_deps,
       collect_deps pkg = Ok all_deps /\
       forall name version, In (name, version) all_deps ->
         exists v t, version = JStr v /\ clean_version v = Ok t)) /\
  ((exists cleaned,
       load_package_json (Parsed pkg) = Run [MsgManifestFound] (Return cleaned))
   \/
   (exists e,
       load_package_json (Parsed pkg)
       = Run [MsgManifestFound; MsgManifestFailed e] (SysExit 1))).
Proof.
  unfold load_package_json, parse_manifest. split.
  - destruct (collect_deps pkg) as [all_deps|e]; cbn [mbind res_bind].
    + split.
      * intros [cleaned Hc]. exists all_deps. split; [reflexivity|].
        intros name version Hin.
        destruct (clean_deps all_deps) as [cl|e] eqn:Hcl; [|discriminate].
        destruct (for_each_Ok_body _ _ _ _ Hcl _ Hin) as (s1 & s2 & Hb).
        cbn [fst snd] in Hb.
        destruct (clean_value version) as [t|e] eqn:Hv; [|discriminate].
        destruct version; try discriminate. cbn in Hv. eauto.
      * intros (all_deps' & [= <-] & Hall).
        destruct (clean_loop_total all_deps) with (acc := @nil (key * json))
          as [cleaned Hc].
        { intros k j Hin. destruct (Hall k j Hin) as (v & t & -> & Ht).
          cbn. rewrite Ht. eauto. }
        exists cleaned. unfold clean_deps. rewrite Hc. reflexivity.
    + split; [intros [? [=]] | intros (? & [=] & _)].
  - destruct (collect_deps pkg) as [all_deps|e]; cbn [mbind res_bind].
    + destruct (clean_deps all_deps) as [cleaned|e].
      * left. exists cleaned. reflexivity.
      * right. exists e. reflexivity.
    + right. exists e. reflexivity.
Qed.

(** ** The lock resolver on whole documents *)

Lemma record_path_entry (acc : pydict pystr json) (entry : pystr * json) :
  (entry.1 <> [] -> exists d, entry.2 = JObj d) ->
  record_path acc entry = Ok (dict_update acc (path_entry entry)).
Proof.
  intros Hshape. unfold record_path, path_entry.
  destruct (bool_decide (entry.1 = [])) eqn:Hroot; [reflexivity|].
  apply bool_decide_eq_false in Hroot. destruct (Hshape Hroot) as [d ->].
  cbn [py_in py_getitem mbind res_bind]. unfold dict_mem.
  destruct (dict_get (str "version") d); reflexivity.
Qed.

Lemma record_paths_visits (entries : list (pystr * json)) :
  packages_shape entries ->
  forall acc,
    for_each record_path entries acc = Ok (dict_update acc (path_visits entries)).
Proof.
  unfold path_visits. induction entries as [|[p info] entries IH];
    intros Hshape acc; [reflexivity|].
  cbn [for_each flat_map]. rewrite record_path_entry.
  - cbn [mbind res_bind]. rewrite dict_update_app. apply IH.
    intros p' info' Hin. apply Hshape. right. exact Hin.
  - cbn [fst snd]. apply (Hshape p info). left. reflexivity.
Qed.

Lemma dict_get_update_visits (name : pystr) (acc l : pydict pystr json) :
  dict_get name (dict_update acc l)
  = match last_visit name l with
    | Some v => Some v
    | None => dict_get name acc
    end.
Proof.
  rewrite dict_get_update_last. unfold last_visit. apply foldl_last_default.
Qed.

Lemma parse_lock_obj (sections : list (pystr * json)) :
  parse_lock (JObj sections)
  = all_packages ← match dict_get (str "packages") sections with
                   | Some packages =>
                       entries ← py_items packages;
                       for_each record_path entries []
                   | None => Ok []
                   end;
    match dict_get (str "dependencies") sections with
    | Some deps => extract_deps deps all_packages
    | None => Ok all_packages
    end.
Proof.
  unfold parse_lock. cbn [py_in py_get py_getitem]. unfold dict_mem.
  destruct (dict_get (str "packages") sections) as [pk|];
    cbn [mbind res_bind].
  - destruct (py_items pk ≫= _) as [acc|e]; cbn [mbind res_bind];
      [|reflexivity].
    destruct (dict_get (str "dependencies") sections); reflexivity.
  - destruct (dict_get (str "dependencies") sections); reflexivity.
Qed.

(** X5.  On a lock document of the documented shape (a [packages] object
    whose entries, the root aside, are objects; a [dependencies] tree)
    the resolver returns, and the version recorded under a name is the
    one of its last visit in the nested tree when there is one, else the
    one of the last path-keyed entry with that name: the nested tree,
    processed second, overrides the path-keyed entries, the root path and
    the entries without a version leave no trace. *)
Theorem parse_lock_lookup (sections : list (pystr * json)) :
  (forall packages,
      dict_get (str "packages") sections = Some packages ->
      exists entries, packages = JObj entries /\ packages_shape entries) ->
  (forall deps,
      dict_get (str "dependencies") sections = Some deps -> tree_shape deps) ->
  exists result,
    parse_lock (JObj sections) = Ok result /\
    forall name,
      dict_get name result
      = match last_visit name
                (visits (JObj (category sections (str "dependencies")))) with
        | Some v => Some v
        | None =>
            last_visit name (path_visits (category sections (str "packages")))
        end.
Proof.
  intros Hp Hd. rewrite parse_lock_obj. unfold category.
  assert (Hfirst :
      match dict_get (str "packages") sections with
      | Some packages =>
          entries ← py_items packages; for_each record_path entries []
      | None => Ok []
      end
      = Ok (dict_update []
              (path_visits match dict_get (str "packages") sections with
                           | Some (JObj d) => d
                           | _ => []
                           end))).
  { destruct (dict_get (str "packages") sections) as [pk|]; [|reflexivity].
    destruct (Hp pk eq_refl) as (entries & -> & Hshape).
    cbn [mbind res_bind py_items]. apply record_paths_visits. exact Hshape. }
  rewrite Hfirst. cbn [mbind res_bind].
  set (acc := dict_update [] _).
  destruct (dict_get (str "dependencies") sections) as [deps|].
  - pose proof (Hd deps eq_refl) as Hs.
    rewrite (extract_deps_visits deps Hs).
    inversion Hs as [items _]; subst deps.
    eexists. split; [reflexivity|]. intros name.
    rewrite dict_get_update_visits.
    destruct (last_visit name (visits (JObj items))); [reflexivity|].
    unfold acc. rewrite dict_get_update_visits.
    destruct (last_visit name _); reflexivity.
  - eexists. split; [reflexivity|]. intros name.
    change (visits (JObj [])) with (@nil (pystr * json)).
    cbn [last_visit foldl]. unfold acc. rewrite dict_get_update_visits.
    destruct (last_visit name _); reflexivity.
Qed.

Lemma parse_lock_lookup_witness :
  parse_lock (JObj lock_both_shapes)
  = Ok [(str "a", JStr (str "2.0.0")); (str "b", JStr (str "3.0.0"))] /\
  exists result,
    parse_lock (JObj lock_both_shapes) = Ok result /\
    dict_get (str "a") result
    = match last_visit (str "a")
              (visits (JObj (category lock_both_shapes (str "dependencies")))) with
      | Some v => Some v
      | None =>
          last_visit (str "a")
            (path_visits (category lock_both_shapes (str "packages")))
      end.
Proof.
  split; [reflexivity|].
  destruct (parse_lock_lookup lock_both_shapes) as (result & Hres & Hget).
  - intros packages [= <-]. eexists. split; [reflexivity|]. concrete_packages.
  - intros deps [= <-]. concrete_tree.
  - exists result. split; [exact Hres | exact (Hget (str "a"))].
Defined.

(** X6.  Partial results are never returned: when the [dependencies]
    tree of a lock document is malformed (some [dependencies] field met
    by the traversal is not an object), the resolver answers with a
    warning and the empty mapping, whatever the [packages] part held. *)
Theorem malformed_tree_discards_all (sections : list (pystr * json))
    (deps : json) :
  dict_get (str "dependencies") sections = Some deps ->
  ~ tree_shape deps ->
  exists e,
    load_package_lock (Parsed (JObj sections))
    = Run [MsgLockFound; MsgLockWarning e] (Return []).
Proof.
  intros Hd Hbad.
  assert (exists e, parse_lock (JObj sections) = Raise e) as [e He].
  { rewrite parse_lock_obj, Hd.
    destruct (match dict_get (str "packages") sections with
              | Some packages => _
              | None => _
              end) as [acc|e]; cbn [mbind res_bind]; [|eauto].
    destruct (extract_deps deps acc) as [r|e] eqn:Hx; [|eauto].
    exfalso. apply Hbad. exact (extract_deps_Ok_shape _ _ _ Hx). }
  exists e. unfold load_package_lock. rewrite He. reflexivity.
Qed.

Lemma malformed_tree_discards_all_witness :
  dict_get (str "dependencies") lock_bad_tree
  = Some (JObj [(str "b", JObj [(str "version", JStr (str "3.0.0"));
                                (str "dependencies", JArr [])])]) /\
  load_package_lock (Parsed (JObj lock_bad_tree))
  = Run [MsgLockFound; MsgLockWarning AttributeError] (Return []) /\
  exists e,
    load_package_lock (Parsed (JObj lock_bad_tree))
    = Run [MsgLockFound; MsgLockWarning e] (Return []).
Proof.
  split; [reflexivity|]. split; [reflexivity|].
  refine (malformed_tree_discards_all lock_bad_tree _ eq_refl _).
  intros Hs. inversion Hs as [items Hsub]; subst.
  specialize (Hsub (str "b") _ (JArr []) (or_introl eq_refl) eq_refl).
  inversion Hsub.
Defined.

(** ** Names of scoped packages *)

Lemma split_on_first (sep : char) (a tail : pystr) :
  Forall (fun c => (c =? sep) = false) a ->
  tail = [] \/ head tail = Some sep ->
  exists rest, split_on sep (a ++ tail) = a :: rest /\
               (forall t, tail = sep :: t -> rest = split_on sep t).
Proof.
  intros Ha Htail. induction Ha as [|c a Hc _ IH].
  - destruct Htail as [->|Hhd].
    + exists []. split; [reflexivity | discriminate].
    + destruct tail as [|c t]; [discriminate|]. injection Hhd as ->.
      exists (split_on sep t). cbn [app split_on]. rewrite N.eqb_refl.
      split; [reflexivity|]. intros t' [= <-]. reflexivity.
  - destruct IH as (rest & Hsp & Hrest). exists rest.
    cbn [app split_on]. rewrite Hc, Hsp. split; [reflexivity | exact Hrest].
Qed.

(** X7.  A cleaned path that starts with [@] is recorded under its first
    two segments and no more: whatever follows the second segment (a
    nested package, for one) is dropped from the name. *)
Theorem scoped_name_two_segments (package_path scope name rest : pystr) :
  remove_all node_modules package_path
  = str "@" ++ scope ++ str "/" ++ name ++ rest ->
  Forall (fun c => (c =? 47) = false) scope ->
  Forall (fun c => (c =? 47) = false) name ->
  rest = [] \/ head rest = Some 47 ->
  package_name_of package_path = str "@" ++ scope ++ str "/" ++ name.
Proof.
  intros Hclean Hscope Hname Hrest. unfold package_name_of. rewrite Hclean.
  destruct (split_on_first 47 (64 :: scope) (47 :: name ++ rest))
    as (r1 & Hsp1 & Hr1);
    [constructor; [reflexivity | exact Hscope] | right; reflexivity |].
  destruct (split_on_first 47 name rest Hname Hrest) as (r2 & Hsp2 & _).
  rewrite (Hr1 _ eq_refl), Hsp2 in Hsp1.
  match type of Hsp1 with
  | ?l = _ =>
      change (split_on 47 (str "@" ++ scope ++ str "/" ++ name ++ rest)) with l
  end.
  rewrite Hsp1. reflexivity.
Qed.

Lemma scoped_name_two_segments_witness :
  remove_all node_modules (str "node_modules/@scope/pkg/node_modules/sub")
  = str "@" ++ str "scope" ++ str "/" ++ str "pkg" ++ str "/sub" /\
  package_name_of (str "node_modules/@scope/pkg/node_modules/sub")
  = str "@" ++ str "scope" ++ str "/" ++ str "pkg".
Proof.
  split; [reflexivity|].
  apply (scoped_name_two_segments _ (str "scope") (str "pkg") (str "/sub")).
  - reflexivity.
  - repeat constructor.
  - repeat constructor.
  - right. reflexivity.
Defined.

(** ** The merge of the two mappings *)

Lemma merge_lock_cons (M : pydict key json) (n : pystr) (v : json)
    (L : pydict pystr json) :
  merge_lock M ((n, v) :: L)
  = merge_lock (if dict_mem (KStr n) M then M else dict_set (KStr n) v M) L.
Proof. reflexivity. Qed.

Lemma merge_lock_split (L : pydict pystr json) :
  forall M : pydict key json,
  exists rest,
    merge_lock M L = M ++ rest /\
    (forall k, k ∈ rest.*1 -> k ∉ M.*1) /\
    (forall kv, In kv rest -> exists n, kv.1 = KStr n /\ In (n, kv.2) L) /\
    (forall n, n ∈ L.*1 -> KStr n ∈ (M ++ rest).*1) /\
    (NoDup M.*1 -> NoDup (M ++ rest).*1).
Proof.
  induction L as [|[n v] L IH]; intros M.
  - exists []. rewrite app_nil_r. repeat split; auto.
    + intros k Hk. cbn in Hk. apply elem_of_nil in Hk. destruct Hk.
    + intros kv [].
    + intros n Hn. cbn in Hn. apply elem_of_nil in Hn. destruct Hn.
  - rewrite merge_lock_cons. destruct (dict_mem (KStr n) M) eqn:Hmem.
    + destruct (IH M) as (rest & Heq & Hfresh & Hfrom & Hall & Hnd).
      exists rest. repeat split; auto.
      * intros kv Hin. destruct (Hfrom kv Hin) as (n' & Hk & Hin').
        exists n'. split; [exact Hk | right; exact Hin'].
      * intros n' Hn'. rewrite fmap_cons in Hn'.
        apply elem_of_cons in Hn' as [->|Hn']; [|auto].
        rewrite fmap_app. apply elem_of_app. left.
        apply dict_mem_elem. exact Hmem.
    + assert (Hn : KStr n ∉ M.*1).
      { intros Hin. apply dict_mem_elem in Hin. congruence. }
      rewrite dict_set_new by (apply dict_get_None; exact Hn).
      destruct (IH (M ++ [(KStr n, v)]))
        as (rest & Heq & Hfresh & Hfrom & Hall & Hnd).
      exists ((KStr n, v) :: rest).
      rewrite Heq, <- app_assoc. cbn [app]. split; [reflexivity|].
      assert (Hassoc : M ++ (KStr n, v) :: rest = (M ++ [(KStr n, v)]) ++ rest)
        by (rewrite <- app_assoc; reflexivity).
      repeat split.
      * intros k Hk. rewrite fmap_cons in Hk.
        apply elem_of_cons in Hk as [->|Hk]; [exact Hn|].
        intros Hin. apply (Hfresh k Hk). rewrite fmap_app.
        apply elem_of_app. left. exact Hin.
      * intros kv [<-|Hin].
        -- exists n. split; [reflexivity | left; reflexivity].
        -- destruct (Hfrom kv Hin) as (n' & Hk & Hin').
           exists n'. split; [exact Hk | right; exact Hin'].
      * intros n' Hn'. rewrite Hassoc. rewrite fmap_cons in Hn'.
        apply elem_of_cons in Hn' as [->|Hn']; [|auto].
        rewrite !fmap_app. apply elem_of_app. left. apply elem_of_app.
        right. cbn. apply list_elem_of_singleton. reflexivity.
      * intros HM. rewrite Hassoc. apply Hnd. rewrite fmap_app.
        apply NoDup_app. repeat split; [exact HM| |apply NoDup_singleton].
        intros k Hk Hk'. cbn in Hk'.
        apply list_elem_of_singleton in Hk' as ->. contradiction.
Qed.

Lemma merge_lock_absorb (L : pydict pystr json) :
  forall M : pydict key json,
    (forall n, n ∈ L.*1 -> KStr n ∈ M.*1) -> merge_lock M L = M.
Proof.
  induction L as [|[n v] L IH]; intros M Hall; [reflexivity|].
  rewrite merge_lock_cons.
  assert (Hmem : dict_mem (KStr n) M = true).
  { apply dict_mem_elem. apply Hall. rewrite fmap_cons. left. }
  rewrite Hmem. apply IH. intros n' Hn'. apply Hall.
  rewrite fmap_cons. right. exact Hn'.
Qed.

(** X8.  Merging is idempotent and only ever appends: the manifest-derived
    entries keep their place and their versions, every name of the lock
    mapping is present afterwards, and merging the same lock mapping a
    second time changes nothing. *)
Theorem merge_lock_idempotent (M : pydict key json) (L : pydict pystr json) :
  merge_lock (merge_lock M L) L = merge_lock M L /\
  (exists rest, merge_lock M L = M ++ rest) /\
  (forall n, n ∈ L.*1 -> KStr n ∈ (merge_lock M L).*1).
Proof.
  destruct (merge_lock_split L M) as (rest & Heq & _ & _ & Hall & _).
  rewrite Heq. split; [|split; [exists rest; reflexivity | exact Hall]].
  rewrite <- Heq at 2. rewrite <- Heq. apply merge_lock_absorb.
  rewrite Heq. exact Hall.
Qed.

(** X9.  The installed set built from a parsed manifest and any lock
    mapping has one entry per name. *)
Theorem installed_names_distinct (pkg : json) (M : pydict key json)
    (L : pydict pystr json) :
  parse_manifest pkg = Ok M -> NoDup (merge_lock M L).*1.
Proof.
  intros Hm. destruct (merge_lock_split L M) as (rest & -> & _ & _ & _ & Hnd).
  apply Hnd. unfold parse_manifest in Hm.
  destruct (collect_deps pkg) as [all_deps|e]; cbn [mbind res_bind] in Hm;
    [|discriminate].
  exact (proj1 (clean_deps_invariant _ _ Hm)).
Qed.

Lemma installed_names_distinct_witness :
  parse_manifest (JObj manifest_two_categories)
  = Ok [(KStr (str "a"), JStr (str "2.0.0"))] /\
  NoDup (merge_lock [(KStr (str "a"), JStr (str "2.0.0"))]
                    [(str "a", JStr (str "9")); (str "b", JStr (str "1"));
                     (str "b", JStr (str "2"))]).*1.
Proof.
  split; [reflexivity|].
  exact (installed_names_distinct (JObj manifest_two_categories) _ _ eq_refl).
Defined.

(** ** The advisory set *)

Lemma size_add_row (infected : gset (pystr * pystr)) (row : list pystr) :
  (size (add_row infected row) <= S (size infected))%nat.
Proof.
  unfold add_row. destruct (advisory_entry row) as [e|]; [|lia].
  rewrite size_union_alt.
  assert (size (({[ e ]} : gset (pystr * pystr)) ∖ infected) <= 1)%nat.
  { rewrite <- (size_singleton (C := gset (pystr * pystr)) e).
    apply subseteq_size. apply subseteq_difference_l. reflexivity. }
  lia.
Qed.

Lemma size_add_rows (data : list (list pystr)) :
  forall infected : gset (pystr * pystr),
    (size (foldl add_row infected data) <= size infected + length data)%nat.
Proof.
  induction data as [|row data IH]; intros infected; cbn [foldl length]; [lia|].
  specialize (IH (add_row infected row)).
  pose proof (size_add_row infected row). lia.
Qed.

(** X10.  The advisory set depends only on which data rows occur, not on
    their order or number of repetitions, and not on the header; it never
    has more entries than there are data rows. *)
Theorem read_advisories_rows_as_set (header header' : list pystr)
    (data data' : list (list pystr)) :
  (forall row, In row data <-> In row data') ->
  read_advisories (header :: data) = read_advisories (header' :: data') /\
  exists infected,
    read_advisories (header :: data) = Ok infected /\
    (size infected <= length data)%nat.
Proof.
  intros Hsame. cbn [read_advisories]. split.
  - f_equal. apply set_eq. intros e. rewrite !elem_of_add_rows.
    split; (intros [Hin|(row & Hin & He)]; [left; exact Hin|]);
      right; exists row; (split; [apply Hsame; exact Hin | exact He]).
  - eexists. split; [reflexivity|].
    pose proof (size_add_rows data ∅) as H. rewrite size_empty in H. exact H.
Qed.

Lemma read_advisories_rows_as_set_witness :
  (forall row,
      In row [[str "a"; str "1"]; [str "b"; str "2"]; [str "a"; str "1"]] <->
      In row [[str "b"; str "2"]; [str "a"; str "1"]]) /\
  read_advisories [[str "package"; str "version"];
                   [str "a"; str "1"]; [str "b"; str "2"]; [str "a"; str "1"]]
  = read_advisories [[]; [str "b"; str "2"]; [str "a"; str "1"]].
Proof.
  assert (H : forall row,
             In row [[str "a"; str "1"]; [str "b"; str "2"]; [str "a"; str "1"]] <->
             In row [[str "b"; str "2"]; [str "a"; str "1"]])
    by (intros row; cbn [In]; tauto).
  split; [exact H|].
  exact (proj1 (read_advisories_rows_as_set _ _ _ _ H)).
Defined.

Lemma mem_char_eq_space (c : char) :
  mem_char c (str "= ") = false -> c <> 61 /\ c <> 32.
Proof.
  assert (E : str "= " = [61; 32]) by reflexivity.
  unfold mem_char. rewrite E. cbn [existsb].
  rewrite !orb_false_iff, !N.eqb_neq. tauto.
Qed.

(** X11.  The entries of the advisory set are in a normal form: the name
    has no whitespace at either end, and the version neither starts with
    [=] or a space nor ends with whitespace. *)
Theorem advisory_entries_normal (header : list pystr)
    (data : list (list pystr)) (infected : gset (pystr * pystr))
    (n v : pystr) :
  read_advisories (header :: data) = Ok infected ->
  (n, v) ∈ infected ->
  trimmed n /\
  (forall c, head v = Some c -> c <> 61 /\ c <> 32) /\
  (forall c, last v = Some c -> is_space c = false).
Proof.
  cbn [read_advisories]. intros [= <-] Hin.
  apply elem_of_add_rows in Hin as [Hin|(row & _ & He)]; [set_solver|].
  apply advisory_entry_Some in He
    as (package & version & rest & _ & [= -> ->]).
  split; [|split].
  - destruct (strip_split package) as (_ & _ & _ & _ & _ & Hhd & Hlast).
    split; assumption.
  - intros c Hc. apply mem_char_eq_space.
    destruct (lstrip_by_split (fun c => mem_char c (str "= ")) (strip version))
      as (_ & _ & _ & Hhd).
    apply Hhd. exact Hc.
  - intros c Hc.
    destruct (strip_split version) as (_ & _ & _ & _ & _ & _ & Hlast).
    destruct (lstrip_by_split (fun c => mem_char c (str "= ")) (strip version))
      as (pre & Heq & _ & _).
    apply Hlast. rewrite Heq. rewrite last_app.
    unfold lstrip in Hc. rewrite Hc. reflexivity.
Qed.

Lemma advisory_entries_normal_witness :
  read_advisories [[str "package"; str "version"]; [str " a "; str " = 1.2 "]]
  = Ok {[ (str "a", str "1.2") ]} /\
  trimmed (str "a").
Proof.
  split; [vm_compute; reflexivity|].
  refine (proj1 (advisory_entries_normal
                   [str "package"; str "version"] [[str " a "; str " = 1.2 "]]
                   {[ (str "a", str "1.2") ]} (str "a") (str "1.2") _ _)).
  - vm_compute. reflexivity.
  - apply elem_of_singleton. reflexivity.
Defined.

(** ** The verdict of a run *)

Lemma for_run_print {A : Type} (f : A -> msg) (l : list A) :
  for_run (fun a => print (f a)) l = Run (map f l) (Return tt).
Proof.
  induction l as [|a l IH]; [reflexivity|].
  cbn [for_run]. rewrite IH. reflexivity.
Qed.

Lemma scan_and_report_outcome (w : world) (lc : list msg)
    (S : gset (pystr * pystr)) (installed : pydict key json) :
  load_infected_packages (csv w) = Run lc (Return S) ->
  outcome (scan_and_report w installed)
  = match scan_packages installed S with
    | Ok [] => Return tt
    | Ok (_ :: _) => SysExit 1
    | Raise e => Uncaught e
    end.
Proof.
  intros Hc. unfold scan_and_report. rewrite Hc.
  cbn [mbind run_bind printed outcome print].
  destruct (scan_packages installed S) as [[|nv found]|e];
    cbn [unguarded mbind run_bind printed outcome]; try reflexivity.
  rewrite !for_run_print. reflexivity.
Qed.

Lemma main_outcome_merge (w : world) (pre lm ll : list msg)
    (M : pydict key json) (L : pydict pystr json) :
  prepare_csv w = Run pre (Return tt) ->
  load_package_json (manifest w) = Run lm (Return M) ->
  load_package_lock (lock w) = Run ll (Return L) ->
  outcome (main w) = outcome (scan_and_report w (merge_lock M L)).
Proof.
  intros Hp Hm Hl. unfold main.
  rewrite Hp. cbn [mbind run_bind printed outcome].
  rewrite Hm. cbn [mbind run_bind printed outcome print].
  rewrite Hl. cbn [mbind run_bind printed outcome print mret run_ret].
  destruct L; reflexivity.
Qed.

Lemma hashable_all_or_not (installed : pydict key json) :
  Forall (fun nv => hashable nv.2) installed \/
  ~ Forall (fun nv => hashable nv.2) installed.
Proof.
  induction installed as [|[k v] l [IH|IH]].
  - left. constructor.
  - destruct v; try (left; constructor; [exact I | exact IH]);
      right; intros H; inversion H as [|? ? Hv _]; exact Hv.
  - right. intros H. inversion H. contradiction.
Qed.

Lemma scan_packages_total (installed : pydict key json)
    (S : gset (pystr * pystr)) :
  (Forall (fun nv => hashable nv.2) installed /\
   scan_packages installed S
   = Ok (filter (fun nv => is_match S nv) installed)) \/
  (~ Forall (fun nv => hashable nv.2) installed /\
   scan_packages installed S = Raise TypeError).
Proof.
  destruct (hashable_all_or_not installed) as [H|H].
  - left. split; [exact H|]. unfold scan_packages.
    rewrite scan_loop by exact H. reflexivity.
  - right. split; [exact H | apply scan_packages_unhashable; exact H].
Qed.

Lemma no_match_filter (S : gset (pystr * pystr)) (installed : pydict key json) :
  filter (fun nv => is_match S nv) installed = [] <->
  forall n v, In (KStr n, JStr v) installed -> (n, v) ∉ S.
Proof.
  split.
  - intros Hnil n v Hin HS.
    assert (Hx : (KStr n, JStr v) ∈ filter (fun nv => is_match S nv) installed).
    { apply list_elem_of_filter. split; [|apply list_elem_of_In; exact Hin].
      apply is_match_pair. exists n, v. auto. }
    rewrite Hnil in Hx. apply elem_of_nil in Hx. exact Hx.
  - intros Hno. destruct (filter _ installed) as [|nv l] eqn:Hf; [reflexivity|].
    exfalso.
    assert (Hx : nv ∈ filter (fun nv => is_match S nv) installed)
      by (rewrite Hf; left).
    apply list_elem_of_filter in Hx as [Hm Hin].
    apply is_match_pair in Hm as (n & v & -> & HS).
    apply (Hno n v); [apply list_elem_of_In; exact Hin | exact HS].
Qed.

(** X12.  Once the advisory file, the manifest and the lock file are
    loaded, the way the run ends is decided by the installed set alone:
    it ends normally (status 0) exactly when every version can be hashed
    and no installed (name, version) pair of strings is in the advisory
    set; it exits with status 1 exactly when every version can be hashed
    and some installed pair is in the set; it ends with an uncaught
    [TypeError] exactly when some version is a list or an object. *)
Theorem main_verdict (w : world) (pre lm ll lc : list msg)
    (M : pydict key json) (L : pydict pystr json)
    (S : gset (pystr * pystr)) :
  prepare_csv w = Run pre (Return tt) ->
  load_package_json (manifest w) = Run lm (Return M) ->
  load_package_lock (lock w) = Run ll (Return L) ->
  load_infected_packages (csv w) = Run lc (Return S) ->
  (outcome (main w) = Return tt <->
   Forall (fun nv => hashable nv.2) (merge_lock M L) /\
   forall n v, In (KStr n, JStr v) (merge_lock M L) -> (n, v) ∉ S) /\
  (outcome (main w) = SysExit 1 <->
   Forall (fun nv => hashable nv.2) (merge_lock M L) /\
   exists n v, In (KStr n, JStr v) (merge_lock M L) /\ (n, v) ∈ S) /\
  (outcome (main w) = Uncaught TypeError <->
   ~ Forall (fun nv => hashable nv.2) (merge_lock M L)).
Proof.
  intros Hp Hm Hl Hc.
  rewrite (main_outcome_merge w pre lm ll M L Hp Hm Hl).
  rewrite (scan_and_report_outcome w lc S _ Hc).
  destruct (scan_packages_total (merge_lock M L) S) as [[Hh ->]|[Hh ->]].
  - destruct (filter _ (merge_lock M L)) as [|nv found] eqn:Hf.
    + pose proof (proj1 (no_match_filter S _) Hf) as Hno.
      split; [|split].
      * split; [auto | reflexivity].
      * split; [discriminate|]. intros (_ & n & v & Hin & HS).
        exfalso. exact (Hno n v Hin HS).
      * split; [discriminate | contradiction].
    + assert (Hx : nv ∈ filter (fun nv => is_match S nv) (merge_lock M L))
        by (rewrite Hf; left).
      apply list_elem_of_filter in Hx as [Hmt Hin].
      apply is_match_pair in Hmt as (n & v & -> & HS).
      apply list_elem_of_In in Hin.
      split; [|split].
      * split; [discriminate|]. intros [_ Hno]. exfalso. exact (Hno n v Hin HS).
      * split; [|reflexivity]. intros _. split; [exact Hh|]. eauto.
      * split; [discriminate | contradiction].
  - split; [|split].
    + split; [discriminate | intros [H _]; contradiction].
    + split; [discriminate | intros [H _]; contradiction].
    + split; [intros _; exact Hh | reflexivity].
Qed.

Lemma main_verdict_witness :
  prepare_csv world_unreadable_lock = Run [MsgTestMode] (Return tt) /\
  outcome (main world_unreadable_lock) = SysExit 1 /\
  (outcome (main world_unreadable_lock) = SysExit 1 <->
   Forall (fun nv => hashable nv.2)
          (merge_lock (of_strings [(str "react", str "19.1.1")]) []) /\
   exists n v,
     In (KStr n, JStr v)
        (merge_lock (of_strings [(str "react", str "19.1.1")]) []) /\
     (n, v) ∈ ({[ (str "react", str "19.1.1") ]} : gset (pystr * pystr))).
Proof.
  split; [reflexivity|]. split; [vm_compute; reflexivity|].
  refine (proj1 (proj2 (main_verdict world_unreadable_lock
                          [MsgTestMode] [MsgManifestFound]
                          [MsgLockFound; MsgLockWarning ValueError] []
                          (of_strings [(str "react", str "19.1.1")]) []
                          {[ (str "react", str "19.1.1") ]} _ _ _ _)));
    reflexivity.
Defined.

(** X15.  When the advisory file cannot be prepared or the manifest
    cannot be loaded, the run exits with status 1 and neither the lock
    file nor the advisory file is read: the run is the same whatever they
    hold. *)
Theorem early_failure_reads_nothing (w : world) :
  outcome (prepare_csv w) = SysExit 1 \/
  outcome (load_package_json (manifest w)) = SysExit 1 ->
  outcome (main w) = SysExit 1 /\
  forall c l, main (with_files w c l) = main w.
Proof.
  intros Hfail.
  assert (Hmain : forall c l,
             main (with_files w c l)
             = (_ ← prepare_csv w;
                installed_packages ← load_package_json (manifest w);
                _ ← print (MsgManifestCount (length installed_packages));
                lock_packages ← load_package_lock l;
                installed_packages ←
                  match lock_packages with
                  | _ :: _ =>
                      _ ← print (MsgLockCount (length lock_packages));
                      let merged := merge_lock installed_packages lock_packages in
                      _ ← print (MsgTotalUnique (length merged));
                      mret merged
                  | [] => _ ← print MsgNoLock; mret installed_packages
                  end;
                scan_and_report (with_files w c l) installed_packages))
    by reflexivity.
  assert (H : outcome (main w) = SysExit 1 /\
              forall c l, main (with_files w c l) = main w);
    [|exact H].
  unfold main at 1 3. setoid_rewrite Hmain.
  destruct (prepare_csv w) as [pre o] eqn:Hp.
  destruct (prepare_csv_outcome w) as [Ho|Ho]; rewrite Hp in Ho;
    cbn [outcome] in Ho; subst o.
  - destruct Hfail as [Hfail|Hfail]; [discriminate Hfail|].
    destruct (load_package_json (manifest w)) as [lm o]. cbn [outcome] in Hfail.
    subst o. split; [reflexivity|]. intros c l. reflexivity.
  - split; [reflexivity|]. intros c l. reflexivity.
Qed.

Lemma early_failure_reads_nothing_witness :
  outcome (load_package_json (manifest world_empty_version)) = SysExit 1 /\
  main (with_files world_empty_version (CsvError OSError) (Unreadable OSError))
  = main world_empty_version.
Proof.
  split; [reflexivity|].
  exact (proj2 (early_failure_reads_nothing world_empty_version
                  (or_intror eq_refl)) (CsvError OSError) (Unreadable OSError)).
Defined.

(** X16.  The lock version of a package that the manifest declares is
    never reported: when the manifest-derived mapping gives a name another
    version than [v], the pair (name, [v]) is not among the matches,
    whatever the lock mapping and the advisory set hold. *)
Theorem manifest_version_shadows_lock (M : pydict key json)
    (L : pydict pystr json) (S : gset (pystr * pystr)) (n v : pystr)
    (declared_version : json) (found : list (key * json)) :
  NoDup M.*1 ->
  dict_get (KStr n) M = Some declared_version ->
  declared_version <> JStr v ->
  scan_packages (merge_lock M L) S = Ok found ->
  ~ In (KStr n, JStr v) found.
Proof.
  intros Hnd Hget Hne Hscan Hin.
  destruct (scan_packages_total (merge_lock M L) S) as [[_ Heq]|[_ Heq]];
    rewrite Heq in Hscan; [|discriminate].
  injection Hscan as <-.
  apply list_elem_of_In, list_elem_of_filter in Hin as [_ Hin].
  destruct (merge_lock_split L M) as (rest & Hm & Hfresh & _).
  rewrite Hm in Hin. apply elem_of_app in Hin as [Hin|Hin].
  - apply list_elem_of_In in Hin.
    rewrite (dict_get_NoDup _ _ _ Hnd Hin) in Hget. congruence.
  - apply (Hfresh (KStr n)).
    + apply list_elem_of_fmap. exists (KStr n, JStr v). split; [reflexivity|].
      exact Hin.
    + destruct (decide (KStr n ∈ M.*1)) as [|Hno]; [assumption|].
      apply dict_get_None in Hno. congruence.
Qed.

Lemma manifest_version_shadows_lock_witness :
  scan_packages
    (merge_lock (of_strings [(str "a", str "1.0.0")])
                [(str "a", JStr (str "2.0.0"))])
    {[ (str "a", str "2.0.0") ]}
  = Ok [] /\
  main world_shadowed
  = Run [MsgTestMode; MsgManifestFound; MsgManifestCount 1; MsgLockFound;
         MsgLockCount 1; MsgTotalUnique 1; MsgAdvisoryCount 1; MsgNoInfection]
        (Return tt) /\
  ~ In (KStr (str "a"), JStr (str "2.0.0")) [].
Proof.
  split; [vm_compute; reflexivity|]. split; [vm_compute; reflexivity|].
  refine (manifest_version_shadows_lock
            (of_strings [(str "a", str "1.0.0")])
            [(str "a", JStr (str "2.0.0"))]
            {[ (str "a", str "2.0.0") ]} (str "a") (str "2.0.0")
            (JStr (str "1.0.0")) [] _ _ _ _).
  - apply (bool_decide_unpack _). vm_compute. exact I.
  - reflexivity.
  - intros [=].
  - vm_compute. reflexivity.
Defined.

(** ** A nested path under a scoped package; a version with a leading space *)


(** A declared version with a leading space keeps its comparator, so the
    advisory entry for the very version it names is not matched and the
    run ends as clean. *)
Example scenario_leading_space_missed :
  clean_version (str " ^19.1.1") = Ok (str "^19.1.1") /\
  main world_leading_space
  = Run [MsgTestMode; MsgManifestFound; MsgManifestCount 1; MsgNoLock;
         MsgAdvisoryCount 1; MsgNoInfection]
        (Return tt).
Proof. split; vm_compute; reflexivity. Qed.
